(** * ng-yandex-map: the binding layer between Angular components and the map SDK

    A shallow embedding of the repository's glue code:
    - [Js]: the JavaScript values and the object heap the components mutate;
    - [Rx]: the [take] operator the map component pipes [initMap] through;
    - [NgModule]: [AngularYandexMapsModule.forRoot];
    - [Ng]: the framework's [SimpleChange];
    - [YandexMap]: [YandexMapComponent] (lifecycle, input combination,
      registration of content children with the map service);
    - [Clusterer]: [YaClustererDirective] (creation, option forwarding,
      child registration, SDK event re-emission);
    - [Control]: [YaControlDirective], as far as its test suite fixes it.

    Calls that leave the wrapper (map service, SDK constructors and setters,
    console) are recorded in traces; the theorems are about those traces and
    about the heap the calls observe. *)

From Stdlib Require Import ZArith NArith.
From Stdlib Require HexadecimalString HexadecimalPos HexadecimalN.
From stdpp Require Import base strings list gmap.

Local Open Scope string_scope.
Local Open Scope list_scope.

(** ** JavaScript values and objects *)

Module Js.

(** Object identity: a heap location. *)
Abbreviation loc := positive (only parsing).

(** Numbers are kept as integers: none of the modelled code computes with
    them, it only stores, forwards and tests them for truthiness. *)
Inductive value :=
| VUndefined
| VNull
| VBool (b : bool)
| VNum (n : Z)
| VStr (s : string)
| VRef (l : loc).

#[global] Instance value_eq_dec : EqDecision value.
Proof. solve_decision. Defined.

(** [ToBoolean]: what [if (v)] and [!v] test.  Objects are always truthy. *)
Definition truthy (v : value) : bool :=
  match v with
  | VUndefined | VNull => false
  | VBool b => b
  | VNum n => negb (n =? 0)%Z
  | VStr s => negb (String.eqb s "")
  | VRef _ => true
  end.

(** An object is its own properties; the heap maps identities to objects.
    A property can be present with value [undefined], which differs from
    an absent property. *)
Abbreviation object := (gmap string value) (only parsing).
Abbreviation heap := (gmap positive (gmap string value)) (only parsing).

Definition fields (h : heap) (l : loc) : object := default ∅ (h !! l).

(** [o.k = v] *)
Definition set (h : heap) (l : loc) (k : string) (v : value) : heap :=
  <[l := <[k := v]> (fields h l)]> h.

(** [{}] : a new object, distinct from every object of the heap. *)
Definition alloc (h : heap) : loc * heap :=
  let l := fresh (dom h) in (l, <[l := ∅]> h).

End Js.

(** ** The rxjs [take] operator *)

Module Rx.

(** State of a [TakeSubscriber]: [count] values seen so far out of
    [total]; [stopped] once it has completed and unsubscribed. *)
Record TakeSubscriber := {
  total : nat;
  count : nat;
  stopped : bool;
}.

Definition take (n : nat) : TakeSubscriber :=
  {| total := n; count := 0; stopped := (n =? 0)%nat |}.

(** A value arrives from the source.  The boolean tells whether it is
    passed on to the destination; the subscriber completes with the
    [total]-th value. *)
Definition next (s : TakeSubscriber) : bool * TakeSubscriber :=
  if stopped s then (false, s)
  else
    let c := S (count s) in
    if (c <=? total s)%nat
    then (true, {| total := total s; count := c; stopped := (c =? total s)%nat |})
    else (false, {| total := total s; count := c; stopped := stopped s |}).

End Rx.

(** ** Module registration: [AngularYandexMapsModule.forRoot] *)

Module NgModule.

(** Injection tokens and module classes are compared by identity. *)
Inductive InjectionToken := YA_MAP_CONFIG | OtherToken (name : string).

Inductive NgModuleClass := AngularYandexMapsModule | OtherModule (name : string).

Record Provider := {
  provide : InjectionToken;
  useValue : Js.value;
}.

Record ModuleWithProviders := {
  ngModule : NgModuleClass;
  providers : list Provider;
}.

Definition forRoot (config : Js.value) : ModuleWithProviders :=
  {| ngModule := AngularYandexMapsModule;
     providers := [ {| provide := YA_MAP_CONFIG; useValue := config |} ] |}.

End NgModule.

(** ** [YandexMapComponent] *)

Module YandexMap.
Import Js.

(** Content children.  Only the inputs the map component reads are kept. *)
Record YandexPlacemarkComponent := {
  geometry : value;
  placemarkProperties : value;
  placemarkOptions : value;
}.

(** [multirouteModel] is an object or [undefined]. *)
Record YandexMultirouteComponent := {
  referencePoints : value;
  multirouteModel : option loc;
  multirouteOptions : value;
}.

Record YandexGeoobjectComponent := {
  geoObjectFeature : value;
  geoObjectOptions : value;
}.

(** Calls on [YandexMapService], which owns every SDK object. *)
Inductive ServiceCall :=
| InitMap
| CreateMap (id : option string) (state : loc) (options : loc)
| CreatePlacemark (geometry properties options : value)
| CreateMultiroute (model : option loc) (options : value)
| CreateGeoObject (feature options : value).

#[global] Instance ServiceCall_eq_dec : EqDecision ServiceCall.
Proof. solve_decision. Defined.

(** The component, the heap its object inputs live in, and the trace of
    service calls, each with the heap the service sees at that call. *)
Record State := {
  center : value;
  zoom : value;
  mapState : loc;
  mapOptions : loc;
  placemarks : list YandexPlacemarkComponent;
  multiroutes : list YandexMultirouteComponent;
  geoObjects : list YandexGeoobjectComponent;
  _uniqueMapId : option string;
  mapContainer : gmap string string;      (* attributes of the native element *)
  subscribers : list Rx.TakeSubscriber;   (* subscribers of [initMap()] *)
  heap : Js.heap;
  trace : list (ServiceCall * Js.heap);
}.

Definition calls (st : State) : list ServiceCall := (trace st).*1.

Definition with_heap (h : Js.heap) (st : State) : State :=
  {| center := center st; zoom := zoom st; mapState := mapState st;
     mapOptions := mapOptions st; placemarks := placemarks st;
     multiroutes := multiroutes st; geoObjects := geoObjects st;
     _uniqueMapId := _uniqueMapId st; mapContainer := mapContainer st;
     subscribers := subscribers st; heap := h; trace := trace st |}.

Definition with_multiroutes (ms : list YandexMultirouteComponent) (st : State) : State :=
  {| center := center st; zoom := zoom st; mapState := mapState st;
     mapOptions := mapOptions st; placemarks := placemarks st;
     multiroutes := ms; geoObjects := geoObjects st;
     _uniqueMapId := _uniqueMapId st; mapContainer := mapContainer st;
     subscribers := subscribers st; heap := heap st; trace := trace st |}.

Definition with_subscribers (ss : list Rx.TakeSubscriber) (st : State) : State :=
  {| center := center st; zoom := zoom st; mapState := mapState st;
     mapOptions := mapOptions st; placemarks := placemarks st;
     multiroutes := multiroutes st; geoObjects := geoObjects st;
     _uniqueMapId := _uniqueMapId st; mapContainer := mapContainer st;
     subscribers := ss; heap := heap st; trace := trace st |}.

Definition with_trace (t : list (ServiceCall * Js.heap)) (st : State) : State :=
  {| center := center st; zoom := zoom st; mapState := mapState st;
     mapOptions := mapOptions st; placemarks := placemarks st;
     multiroutes := multiroutes st; geoObjects := geoObjects st;
     _uniqueMapId := _uniqueMapId st; mapContainer := mapContainer st;
     subscribers := subscribers st; heap := heap st; trace := t |}.

(** A service call is appended to the trace with the current heap. *)
Definition call (c : ServiceCall) (st : State) : State :=
  {| center := center st; zoom := zoom st; mapState := mapState st;
     mapOptions := mapOptions st; placemarks := placemarks st;
     multiroutes := multiroutes st; geoObjects := geoObjects st;
     _uniqueMapId := _uniqueMapId st; mapContainer := mapContainer st;
     subscribers := subscribers st; heap := heap st;
     trace := trace st ++ [(c, heap st)] |}.

(** One iteration of the [multiroutes.forEach] of [_combineInputs]. *)
Definition combine_multiroute (h : Js.heap) (m : YandexMultirouteComponent)
  : Js.heap * YandexMultirouteComponent :=
  let '(l, h1) :=
    match multirouteModel m with
    | Some l => (l, h)
    | None => alloc h
    end in
  (Js.set h1 l "referencePoints" (referencePoints m),
   {| referencePoints := referencePoints m;
      multirouteModel := Some l;
      multirouteOptions := multirouteOptions m |}).

Fixpoint combine_multiroutes (h : Js.heap) (ms : list YandexMultirouteComponent)
  : Js.heap * list YandexMultirouteComponent :=
  match ms with
  | [] => (h, [])
  | m :: ms' =>
      let '(h1, m1) := combine_multiroute h m in
      let '(h2, ms1) := combine_multiroutes h1 ms' in
      (h2, m1 :: ms1)
  end.

Definition _combineInputs (st : State) : State :=
  let h1 := Js.set (heap st) (mapState st) "zoom" (zoom st) in
  let h2 := Js.set h1 (mapState st) "center" (center st) in
  let '(h3, ms) := combine_multiroutes h2 (multiroutes st) in
  with_heap h3 (with_multiroutes ms st).

(** [n.toString(16)] for a non-negative integer. *)
Definition toString16 (n : N) : string :=
  HexadecimalString.NilZero.string_of_uint (N.to_hex_uint n).

(** [r] is the integer [~~(Math.random() * 1e8)] drawn by this call. *)
Definition _setUniqueMapIdOfMap (r : N) (st : State) : State :=
  let id := String.append "f" (toString16 r) in
  {| center := center st; zoom := zoom st; mapState := mapState st;
     mapOptions := mapOptions st; placemarks := placemarks st;
     multiroutes := multiroutes st; geoObjects := geoObjects st;
     _uniqueMapId := Some id;
     mapContainer := <["id" := id]> (mapContainer st);
     subscribers := subscribers st; heap := heap st; trace := trace st |}.

Definition placemark_call (p : YandexPlacemarkComponent) : ServiceCall :=
  CreatePlacemark (geometry p) (placemarkProperties p) (placemarkOptions p).

Definition multiroute_call (m : YandexMultirouteComponent) : ServiceCall :=
  CreateMultiroute (multirouteModel m) (multirouteOptions m).

Definition geoObject_call (g : YandexGeoobjectComponent) : ServiceCall :=
  CreateGeoObject (geoObjectFeature g) (geoObjectOptions g).

Definition _setPlacemarks (p : YandexPlacemarkComponent) : State -> State :=
  call (placemark_call p).

Definition _createMultiroute (m : YandexMultirouteComponent) : State -> State :=
  call (multiroute_call m).

Definition _createGeoObject (g : YandexGeoobjectComponent) : State -> State :=
  call (geoObject_call g).

(** [list.forEach(f)] over calls that only extend the trace. *)
Definition forEach {A} (f : A -> State -> State) (l : list A) (st : State) : State :=
  foldl (fun s a => f a s) st l.

(** The subscriber callback of [_createMapWithObjects]. *)
Definition on_initMap (st : State) : State :=
  let st1 := _combineInputs st in
  let st2 := call (CreateMap (_uniqueMapId st1) (mapState st1) (mapOptions st1)) st1 in
  let st3 := forEach _setPlacemarks (placemarks st2) st2 in
  let st4 := forEach _createMultiroute (multiroutes st3) st3 in
  forEach _createGeoObject (geoObjects st4) st4.

Definition _createMapWithObjects (st : State) : State :=
  let st1 := call InitMap st in
  with_subscribers (subscribers st1 ++ [Rx.take 1]) st1.

Definition ngOnInit (r : N) (st : State) : State :=
  _createMapWithObjects (_setUniqueMapIdOfMap r st).

(** The [initMap()] observable emits: every subscriber gets the value in
    subscription order, behind its own [take(1)]. *)
Fixpoint deliver (pending done : list Rx.TakeSubscriber) (st : State) : State :=
  match pending with
  | [] => with_subscribers done st
  | s :: rest =>
      let '(pass, s') := Rx.next s in
      deliver rest (done ++ [s']) (if pass then on_initMap st else st)
  end.

Definition initMap_emits (st : State) : State :=
  deliver (subscribers st) [] st.

(** [n] emissions in a row. *)
Definition initMap_emits_n (n : nat) (st : State) : State :=
  Nat.iter n initMap_emits st.

(** The calls that register the content children, in the order of
    [_createMapWithObjects]. *)
Definition children_calls (st : State) : list ServiceCall :=
  (placemark_call <$> placemarks st) ++
  (multiroute_call <$> multiroutes st) ++
  (geoObject_call <$> geoObjects st).

Definition is_createMap (c : ServiceCall) : bool :=
  match c with
  | CreateMap _ _ _ => true
  | _ => false
  end.

(** What [_combineInputs] makes of one multiroute: the inputs are kept, an
    existing model object is kept, a missing one is replaced by an object
    that is none of the objects [X]. *)
Definition combined (X : gset positive) (m m' : YandexMultirouteComponent) : Prop :=
  referencePoints m' = referencePoints m /\
  multirouteOptions m' = multirouteOptions m /\
  match multirouteModel m with
  | Some l => multirouteModel m' = Some l
  | None => exists l, multirouteModel m' = Some l /\ l ∉ X
  end.

(** A component as the framework hands it to [ngOnInit]: the map state
    [{ controls: 7 }] at location 1, empty map options at 2, two multiroutes
    (the second with a model object at 3), a placemark and a geo-object. *)
Definition sample (zoom center : value) : State :=
  {| center := center; zoom := zoom; mapState := 1%positive; mapOptions := 2%positive;
     placemarks := [ {| geometry := VNum 1; placemarkProperties := VUndefined;
                        placemarkOptions := VUndefined |} ];
     multiroutes := [ {| referencePoints := VStr "a"; multirouteModel := None;
                         multirouteOptions := VUndefined |};
                      {| referencePoints := VStr "b"; multirouteModel := Some 3%positive;
                         multirouteOptions := VNull |} ];
     geoObjects := [ {| geoObjectFeature := VNum 2; geoObjectOptions := VUndefined |} ];
     _uniqueMapId := None; mapContainer := ∅; subscribers := [];
     heap := {[ 1%positive := {[ "controls" := VNum 7 ]};
                2%positive := ∅;
                3%positive := {[ "params" := VNum 5 ]} ]};
     trace := [] |}.

End YandexMap.

(** ** Framework types *)

Module Ng.

(** An entry of the [SimpleChanges] object handed to [ngOnChanges]. *)
Record SimpleChange := {
  previousValue : Js.value;
  currentValue : Js.value;
  firstChange : bool;
}.

End Ng.

(** ** [YaClustererDirective] *)

Module Clusterer.
Import Js Ng.

(** SDK maps and clusterers are identified by reference. *)
Abbreviation MapRef := nat (only parsing).
Abbreviation ClustererRef := nat (only parsing).

(** What the clusterer directive uses of a content child
    ([YaPlacemarkDirective], [YaGeoobjectDirective]): its public [id] field
    and its create method ([createPlacemark], [createGeoObject]), which
    updates the child and returns the SDK object to add.  The children's
    classes are outside the modelled sources, so they are parameters. *)
Class ChildDirective (D : Type) := {
  child_id : D -> value;
  child_create : MapRef -> ClustererRef -> D -> D * value;
}.


(** A child is a placemark or a geo-object directive instance. *)
Inductive ChildRef :=
| PlacemarkRef (i : nat)
| GeoObjectRef (i : nat).

#[global] Instance ChildRef_eq_dec : EqDecision ChildRef.
Proof. solve_decision. Defined.

(** [e.originalEvent], of which the handlers read [type]. *)
Record OriginalEvent := {
  type : string;
  target : value;
}.

Record Event := {
  originalEvent : OriginalEvent;
}.

(** The event the SDK builds for type [t] on target [tg]. *)
Definition sdk_event (t : string) (tg : value) : Event :=
  {| originalEvent := {| type := t; target := tg |} |}.

(** The directive's outputs. *)
Inductive Output := ready | hint | mapChange | optionsChange | parentChange.

#[global] Instance Output_eq_dec : EqDecision Output.
Proof. solve_decision. Defined.

(** Emitted values; the [ymaps] global every one of them carries is left out. *)
Inductive Emitted :=
| YaReadyEvent (instance : ClustererRef)
| YaEvent (instance : ClustererRef) (type : string) (event : Event).

(** The [fn] closures of [_addEventListeners]: each emits on one output of
    the directive and has captured the [clusterer] constant. *)
Record Handler := {
  emitter : Output;
  captured : ClustererRef;
}.

(** First argument of [events.add]: one name or an array of names. *)
Inductive EventName :=
| Name (s : string)
| Names (l : list string).

Definition listens (n : EventName) (t : string) : bool :=
  match n with
  | Name s => bool_decide (s = t)
  | Names l => bool_decide (t ∈ l)
  end.

(** A subscription to [placemarks.changes] or [geoObjects.changes], with
    the [map] and [clusterer] its callback has captured. *)
Inductive ListKind := Placemarks | GeoObjects.

#[global] Instance ListKind_eq_dec : EqDecision ListKind.
Proof. solve_decision. Defined.

Record ListSub := {
  sub_kind : ListKind;
  sub_map : MapRef;
  sub_clusterer : ClustererRef;
}.

(** Calls into the SDK.  [Add c r o] is [clusterer.add(o)] for the object
    [o] that the create method of child [r] has just returned. *)
Inductive SdkCall :=
| NewClusterer (options : value)
| OptionsSet (c : ClustererRef) (v : value)
| Add (c : ClustererRef) (r : ChildRef) (o : value)
| EventsAdd (c : ClustererRef) (n : EventName) (h : Handler).

Section Directive.
Context {P G : Type} `{!ChildDirective P} `{!ChildDirective G}.

(** The directive, the child directives its query lists refer to, and the
    SDK side: the listeners registered on each clusterer and the trace of
    SDK calls. *)
Record State := {
  placemarks : list nat;
  geoObjects : list nat;
  options : value;
  emitted : list (Output * Emitted);
  _sub_closed : bool;
  _sub : list ListSub;
  _clusterer : option ClustererRef;
  placemark_store : gmap nat P;
  geoObject_store : gmap nat G;
  listeners : list (list (EventName * Handler));
  sdk : list SdkCall;
}.

Definition emit (o : Output) (v : Emitted) (st : State) : State :=
  {| placemarks := placemarks st; geoObjects := geoObjects st;
     options := options st; emitted := emitted st ++ [(o, v)];
     _sub_closed := _sub_closed st; _sub := _sub st;
     _clusterer := _clusterer st; placemark_store := placemark_store st;
     geoObject_store := geoObject_store st; listeners := listeners st;
     sdk := sdk st |}.

Definition sdk_call (c : SdkCall) (st : State) : State :=
  {| placemarks := placemarks st; geoObjects := geoObjects st;
     options := options st; emitted := emitted st;
     _sub_closed := _sub_closed st; _sub := _sub st;
     _clusterer := _clusterer st; placemark_store := placemark_store st;
     geoObject_store := geoObject_store st; listeners := listeners st;
     sdk := sdk st ++ [c] |}.

Definition set_placemark (i : nat) (p : P) (st : State) : State :=
  {| placemarks := placemarks st; geoObjects := geoObjects st;
     options := options st; emitted := emitted st;
     _sub_closed := _sub_closed st; _sub := _sub st;
     _clusterer := _clusterer st;
     placemark_store := <[i := p]> (placemark_store st);
     geoObject_store := geoObject_store st; listeners := listeners st;
     sdk := sdk st |}.

Definition set_geoObject (i : nat) (g : G) (st : State) : State :=
  {| placemarks := placemarks st; geoObjects := geoObjects st;
     options := options st; emitted := emitted st;
     _sub_closed := _sub_closed st; _sub := _sub st;
     _clusterer := _clusterer st; placemark_store := placemark_store st;
     geoObject_store := <[i := g]> (geoObject_store st);
     listeners := listeners st; sdk := sdk st |}.

(** The current [id] of a child ([undefined] for a reference to no child). *)
Definition id_of (st : State) (r : ChildRef) : value :=
  match r with
  | PlacemarkRef i => default VUndefined (child_id <$> placemark_store st !! i)
  | GeoObjectRef i => default VUndefined (child_id <$> geoObject_store st !! i)
  end.

(** [ngOnChanges] is [_updateClusterer]. *)
Definition _updateClusterer (changes : gmap string SimpleChange) (st : State) : State :=
  match _clusterer st with
  | None => st
  | Some clusterer =>
      match changes !! "options" with
      | Some options => sdk_call (OptionsSet clusterer (currentValue options)) st
      | None => st
      end
  end.

Definition ngOnChanges (changes : gmap string SimpleChange) (st : State) : State :=
  _updateClusterer changes st.

(** Before it calls [ngOnChanges], the framework assigns the changed inputs. *)
Definition assign_inputs (changes : gmap string SimpleChange) (st : State) : State :=
  {| placemarks := placemarks st; geoObjects := geoObjects st;
     options := default (options st) (currentValue <$> changes !! "options");
     emitted := emitted st;
     _sub_closed := _sub_closed st; _sub := _sub st;
     _clusterer := _clusterer st; placemark_store := placemark_store st;
     geoObject_store := geoObject_store st; listeners := listeners st;
     sdk := sdk st |}.

(** The body of the two [list.forEach] callbacks of [createClusterer]:
    a child with a falsy [id] is created and added, any other is skipped. *)
Definition visit (map : MapRef) (clusterer : ClustererRef) (r : ChildRef) (st : State) : State :=
  match r with
  | PlacemarkRef i =>
      match placemark_store st !! i with
      | Some placemark =>
          if truthy (child_id placemark) then st
          else
            let '(placemark', o) := child_create map clusterer placemark in
            sdk_call (Add clusterer r o) (set_placemark i placemark' st)
      | None => st
      end
  | GeoObjectRef i =>
      match geoObject_store st !! i with
      | Some geoObject =>
          if truthy (child_id geoObject) then st
          else
            let '(geoObject', o) := child_create map clusterer geoObject in
            sdk_call (Add clusterer r o) (set_geoObject i geoObject' st)
      | None => st
      end
  end.

Definition refs (k : ListKind) (l : list nat) : list ChildRef :=
  match k with
  | Placemarks => PlacemarkRef <$> l
  | GeoObjects => GeoObjectRef <$> l
  end.

(** The subscriber callback: [list.forEach(...)]. *)
Definition on_list (k : ListKind) (map : MapRef) (clusterer : ClustererRef)
    (l : list nat) (st : State) : State :=
  foldl (fun s r => visit map clusterer r s) st (refs k l).

(** [this._sub.add(s)]: a closed subscription unsubscribes what is added. *)
Definition _sub_add (s : ListSub) (st : State) : State :=
  {| placemarks := placemarks st; geoObjects := geoObjects st;
     options := options st; emitted := emitted st;
     _sub_closed := _sub_closed st;
     _sub := if _sub_closed st then _sub st else _sub st ++ [s];
     _clusterer := _clusterer st; placemark_store := placemark_store st;
     geoObject_store := geoObject_store st; listeners := listeners st;
     sdk := sdk st |}.

Definition handlers (clusterer : ClustererRef) : list (EventName * Handler) :=
  [ (Names ["hintclose"; "hintopen"], {| emitter := hint; captured := clusterer |});
    (Name "mapchange", {| emitter := mapChange; captured := clusterer |});
    (Name "optionschange", {| emitter := optionsChange; captured := clusterer |});
    (Name "parentchange", {| emitter := parentChange; captured := clusterer |}) ].

(** [clusterer.events.add(name, callback)] *)
Definition events_add (clusterer : ClustererRef) (nh : EventName * Handler) (st : State) : State :=
  let st1 := sdk_call (EventsAdd clusterer nh.1 nh.2) st in
  {| placemarks := placemarks st1; geoObjects := geoObjects st1;
     options := options st1; emitted := emitted st1;
     _sub_closed := _sub_closed st1; _sub := _sub st1;
     _clusterer := _clusterer st1; placemark_store := placemark_store st1;
     geoObject_store := geoObject_store st1;
     listeners := alter (fun ls => ls ++ [nh]) clusterer (listeners st1);
     sdk := sdk st1 |}.

(** [_addEventListeners] runs right after [createClusterer] has set
    [_clusterer]; [NgZone.run(f)] runs [f]. *)
Definition _addEventListeners (st : State) : State :=
  match _clusterer st with
  | None => st
  | Some clusterer =>
      let st1 := emit ready (YaReadyEvent clusterer) st in
      foldl (fun s nh => events_add clusterer nh s) st1 (handlers clusterer)
  end.

(** [new ymaps.Clusterer(this.options)] and [this._clusterer = clusterer]. *)
Definition new_clusterer (st : State) : ClustererRef * State :=
  let clusterer := length (listeners st) in
  (clusterer,
   {| placemarks := placemarks st; geoObjects := geoObjects st;
      options := options st; emitted := emitted st;
      _sub_closed := _sub_closed st; _sub := _sub st;
      _clusterer := Some clusterer; placemark_store := placemark_store st;
      geoObject_store := geoObject_store st;
      listeners := listeners st ++ [[]];
      sdk := sdk st ++ [NewClusterer (options st)] |}).

(** [startWith] hands the current list to the callback on subscription,
    before the subscription is stored in [_sub]. *)
Definition createClusterer (map : MapRef) (st : State) : ClustererRef * State :=
  let '(clusterer, st1) := new_clusterer st in
  let st2 := on_list Placemarks map clusterer (placemarks st1) st1 in
  let st3 := _sub_add {| sub_kind := Placemarks; sub_map := map; sub_clusterer := clusterer |} st2 in
  let st4 := on_list GeoObjects map clusterer (geoObjects st3) st3 in
  let st5 := _sub_add {| sub_kind := GeoObjects; sub_map := map; sub_clusterer := clusterer |} st4 in
  (clusterer, _addEventListeners st5).

Definition ngOnDestroy (st : State) : State :=
  {| placemarks := placemarks st; geoObjects := geoObjects st;
     options := options st; emitted := emitted st;
     _sub_closed := true; _sub := [];
     _clusterer := _clusterer st; placemark_store := placemark_store st;
     geoObject_store := geoObject_store st; listeners := listeners st;
     sdk := sdk st |}.

(** The framework resets a query list to [l] and the list emits itself on
    [changes]: every live subscription of that kind runs its callback. *)
Definition set_list (k : ListKind) (l : list nat) (st : State) : State :=
  {| placemarks := if decide (k = Placemarks) then l else placemarks st;
     geoObjects := if decide (k = GeoObjects) then l else geoObjects st;
     options := options st; emitted := emitted st;
     _sub_closed := _sub_closed st; _sub := _sub st;
     _clusterer := _clusterer st; placemark_store := placemark_store st;
     geoObject_store := geoObject_store st; listeners := listeners st;
     sdk := sdk st |}.

Definition notify (k : ListKind) (l : list nat) (s : ListSub) (st : State) : State :=
  if decide (sub_kind s = k) then on_list k (sub_map s) (sub_clusterer s) l st else st.

Definition changes_emit (k : ListKind) (l : list nat) (st : State) : State :=
  let st1 := set_list k l st in
  foldl (fun s sub => notify k l sub s) st1 (_sub st1).

(** The callback [events.add] was given: [e => ngZone.run(() => handler.fn(e))]. *)
Definition run_handler (h : Handler) (e : Event) (st : State) : State :=
  emit (emitter h) (YaEvent (captured h) (type (originalEvent e)) e) st.

(** The SDK delivers event [e] to clusterer [c]: the callbacks registered
    under the event's type run in registration order. *)
Definition fire (c : ClustererRef) (e : Event) (st : State) : State :=
  foldl (fun s nh => if listens nh.1 (type (originalEvent e)) then run_handler nh.2 e s else s)
        st (default [] (listeners st !! c)).

(** Everything that can happen to a directive. *)
Inductive Op :=
| OnChanges (changes : gmap string SimpleChange)
| CreateClusterer (map : MapRef)
| Changes (k : ListKind) (l : list nat)
| Fire (c : ClustererRef) (e : Event)
| OnDestroy.

Definition step (st : State) (op : Op) : State :=
  match op with
  | OnChanges changes => ngOnChanges changes (assign_inputs changes st)
  | CreateClusterer map => (createClusterer map st).2
  | Changes k l => changes_emit k l st
  | Fire c e => fire c e st
  | OnDestroy => ngOnDestroy st
  end.

Definition run (ops : list Op) (st : State) : State := foldl step st ops.




(** A directive as its constructor leaves it, with its query lists and
    [options] input bound, before any clusterer exists. *)
Definition new_directive (options : value) (placemarks geoObjects : list nat)
    (ps : gmap nat P) (gs : gmap nat G) : State :=
  {| placemarks := placemarks; geoObjects := geoObjects; options := options;
     emitted := []; _sub_closed := false; _sub := []; _clusterer := None;
     placemark_store := ps; geoObject_store := gs; listeners := []; sdk := [] |}.

(** The part of the state that processing a query list leaves alone. *)
Definition shell (st : State) :=
  (placemarks st, geoObjects st, options st, emitted st,
   _sub_closed st, _sub st, _clusterer st, listeners st).

(** The SDK object the create method of child [r] returns when it is called
    in state [st] with [map] and [clusterer]; none for a reference to no
    child. *)
Definition create_result (map : MapRef) (clusterer : ClustererRef) (st : State)
    (r : ChildRef) : option value :=
  match r with
  | PlacemarkRef i => (fun p => (child_create map clusterer p).2) <$> placemark_store st !! i
  | GeoObjectRef i => (fun g => (child_create map clusterer g).2) <$> geoObject_store st !! i
  end.

(** How many clusterers a sequence of operations creates. *)
Definition is_create (op : Op) : bool :=
  match op with
  | CreateClusterer _ => true
  | _ => false
  end.

Definition creations (ops : list Op) : nat :=
  length (filter (fun op => is_create op = true) ops).

(** No registered handler emits on [ready]. *)
Definition no_ready_handler (st : State) : Prop :=
  Forall (Forall (fun nh : EventName * Handler => emitter nh.2 ≠ ready)) (listeners st).

(** The event types the directive registers a handler for. *)
Definition handled_types : list string :=
  ["hintclose"; "hintopen"; "mapchange"; "optionschange"; "parentchange"].

End Directive.

Arguments State P G : clear implicits.

(** A child directive in the shape the clusterer expects, to run the model
    on: creation stores a generated id and hands out the child's SDK object. *)
Record SampleChild := {
  sample_id : value;
  sample_object : loc;
}.

#[global] Instance SampleChild_directive : ChildDirective SampleChild := {|
  child_id := sample_id;
  child_create := fun _ _ d =>
    ({| sample_id := VStr "f2a"; sample_object := sample_object d |},
     VRef (sample_object d));
|}.

(** A directive with two placemarks and one geo-object, none created yet. *)
Definition sample_directive : State SampleChild SampleChild :=
  new_directive (VNum 1) [0; 1] [0]
    {[ 0 := {| sample_id := VUndefined; sample_object := 10%positive |};
       1 := {| sample_id := VUndefined; sample_object := 11%positive |} ]}
    {[ 0 := {| sample_id := VUndefined; sample_object := 12%positive |} ]}.


(** A child whose create method hands out its SDK object and leaves its
    [id] as it was. *)
Record BareChild := {
  bare_id : value;
  bare_object : loc;
}.

#[global] Instance BareChild_directive : ChildDirective BareChild := {|
  child_id := bare_id;
  child_create := fun _ _ d => (d, VRef (bare_object d));
|}.


End Clusterer.

(** ** [YaControlDirective] *)

Module Control.
Import Js.

(** What the directive does to the outside: SDK calls, output emissions and
    console calls, in order. *)
Inductive Effect :=
| NewControl (type : string) (parameters : value)
| ControlsAdd (map : nat) (control : nat)
| EmitReady (control : nat)
| ConsoleWarn.

#[global] Instance Effect_eq_dec : EqDecision Effect.
Proof. solve_decision. Defined.

Record State := {
  type : string;
  parameters : value;
  control : option nat;
  controls_made : nat;
  effects : list Effect;
}.

(** Modelled from the spec: the initialisation of [YaControlDirective]
    (ya-control.directive.ts is not among the sources).  Once the parent
    component hands out the map, the control is constructed from [type] and
    [parameters], added to the controls of the map and announced on [ready],
    as the directive's test suite expects. *)
Definition on_map (map : nat) (st : State) : State :=
  let c := controls_made st in
  {| type := type st; parameters := parameters st;
     control := Some c; controls_made := S c;
     effects := effects st ++ [NewControl (type st) (parameters st);
                               ControlsAdd map c; EmitReady c] |}.

(** Modelled from the spec: [YaControlDirective.ngOnChanges]
    (ya-control.directive.ts is not among the sources).  A control cannot be
    reconfigured: a property change that arrives once the control exists is
    surfaced as a console warning, and nothing else is done. *)
Definition ngOnChanges (changes : gmap string Ng.SimpleChange) (st : State) : State :=
  match control st with
  | None => st
  | Some _ =>
      {| type := type st; parameters := parameters st;
         control := control st; controls_made := controls_made st;
         effects := effects st ++ [ConsoleWarn] |}
  end.

(** A [ya-control] of type [RoutePanel], as the test host declares it. *)
Definition sample_control : State :=
  {| type := "RoutePanel"; parameters := VUndefined; control := None;
     controls_made := 0; effects := [] |}.

(** The framework assigns a changed [parameters] input, then calls the hook. *)
Definition parameters_change (v : value) (st : State) : State :=
  let st1 := {| type := type st; parameters := v;
                control := control st; controls_made := controls_made st;
                effects := effects st |} in
  ngOnChanges {[ "parameters" :=
                 {| Ng.previousValue := parameters st;
                    Ng.currentValue := v;
                    Ng.firstChange := false |} ]} st1.

End Control.

(** * Properties *)

(** ** Objects *)

Section JsFacts.
Import Js.

Lemma fields_set (h : gmap positive (gmap string value)) l k v l' :
  fields (Js.set h l k v) l' =
  if decide (l = l') then <[k := v]> (fields h l) else fields h l'.
Proof.
  unfold fields at 1, Js.set. rewrite lookup_insert.
  destruct (decide (l = l')); reflexivity.
Qed.

(** Allocation is invisible through [fields]: the new object is empty, and
    so is the view of a location that holds no object. *)
Lemma fields_alloc (h : gmap positive (gmap string value)) l' :
  fields (alloc h).2 l' = fields h l'.
Proof.
  unfold alloc, fields; simpl. rewrite lookup_insert.
  destruct (decide (fresh (dom h) = l')) as [<-|]; [|reflexivity].
  simpl. pose proof (is_fresh (dom h)) as Hf.
  apply not_elem_of_dom in Hf. rewrite Hf. reflexivity.
Qed.

Example truthy_values :
  truthy VUndefined = false /\ truthy (VStr "") = false /\ truthy (VNum 0) = false /\
  truthy (VStr "f2a") = true /\ truthy (VRef 1%positive) = true.
Proof. repeat split. Qed.

Lemma dom_set (h : gmap positive (gmap string value)) l k v :
  dom (Js.set h l k v) = {[l]} ∪ dom h.
Proof. unfold Js.set. apply dom_insert_L. Qed.

End JsFacts.

(** ** The [take] operator *)

Section RxFacts.
Import Rx.

Example take_1_passes_one_value :
  (next (take 1)).1 = true /\ (next (next (take 1)).2).1 = false.
Proof. split; reflexivity. Qed.

Lemma next_stopped s : stopped s = true -> next s = (false, s).
Proof. intros H. unfold next. rewrite H. reflexivity. Qed.

End RxFacts.

(** ** [YandexMapComponent] *)

Section YandexMapFacts.
Import Js YandexMap.

Lemma with_subscribers_id st : with_subscribers (subscribers st) st = st.
Proof. destruct st; reflexivity. Qed.

Lemma forEach_call {A} (g : A -> ServiceCall) (l : list A) st :
  forEach (fun a => call (g a)) l st =
  with_trace (trace st ++ ((fun a => (g a, heap st)) <$> l)) st.
Proof.
  unfold forEach. revert st. induction l as [|a l IH]; intros st; simpl.
  - rewrite app_nil_r. destruct st; reflexivity.
  - rewrite IH. unfold with_trace, call; simpl. rewrite <- app_assoc. reflexivity.
Qed.

(** *** [_combineInputs] *)

Lemma combine_multiroute_dom h m :
  dom h ⊆ dom (combine_multiroute h m).1.
Proof.
  unfold combine_multiroute.
  destruct (multirouteModel m) as [l|]; simpl; rewrite dom_set; [set_solver|].
  rewrite dom_insert_L. set_solver.
Qed.

Lemma combine_multiroute_combined h m :
  combined (dom h) m (combine_multiroute h m).2.
Proof.
  unfold combined, combine_multiroute.
  destruct (multirouteModel m) as [l|] eqn:E; simpl; rewrite ?E; repeat split; eauto.
  eexists; split; [reflexivity|]. apply is_fresh.
Qed.

Lemma combine_multiroute_frame h m l k :
  fields (combine_multiroute h m).1 l !! k ≠ fields h l !! k ->
  k = "referencePoints" /\ multirouteModel (combine_multiroute h m).2 = Some l.
Proof.
  unfold combine_multiroute.
  destruct (multirouteModel m) as [l0|]; simpl; rewrite fields_set.
  - destruct (decide (l0 = l)) as [->|]; [|congruence].
    rewrite lookup_insert. destruct (decide ("referencePoints" = k)); [auto|congruence].
  - destruct (decide (fresh (dom h) = l)) as [<-|].
    + rewrite lookup_insert. destruct (decide ("referencePoints" = k)); [auto|].
      pose proof (fields_alloc h (fresh (dom h))) as Ha. simpl in Ha. rewrite Ha. congruence.
    + pose proof (fields_alloc h l) as Ha. simpl in Ha. rewrite Ha. congruence.
Qed.

Lemma combine_multiroute_written h m l :
  multirouteModel (combine_multiroute h m).2 = Some l ->
  fields (combine_multiroute h m).1 l !! "referencePoints" = Some (referencePoints m).
Proof.
  unfold combine_multiroute.
  destruct (multirouteModel m) as [l0|]; simpl; intros [= <-];
    rewrite fields_set, decide_True by reflexivity; apply lookup_insert_eq.
Qed.

Lemma combine_multiroutes_cons h m ms :
  combine_multiroutes h (m :: ms) =
  ((combine_multiroutes (combine_multiroute h m).1 ms).1,
   (combine_multiroute h m).2 :: (combine_multiroutes (combine_multiroute h m).1 ms).2).
Proof.
  simpl. destruct (combine_multiroute h m) as [h1 m1]; simpl.
  destruct (combine_multiroutes h1 ms); reflexivity.
Qed.

Lemma combined_weaken (X X' : gset positive) m m' :
  X ⊆ X' -> combined X' m m' -> combined X m m'.
Proof.
  unfold combined. intros Hd (?&?&Hm). repeat split; try assumption.
  destruct (multirouteModel m); [assumption|].
  destruct Hm as (l&?&?). exists l. split; [assumption|set_solver].
Qed.

Lemma combine_multiroutes_combined h ms :
  Forall2 (combined (dom h)) ms (combine_multiroutes h ms).2.
Proof.
  revert h. induction ms as [|m ms IH]; intros h; [constructor|].
  rewrite combine_multiroutes_cons; simpl. constructor.
  - apply combine_multiroute_combined.
  - eapply Forall2_impl; [apply IH|]. intros m0 m0'.
    apply combined_weaken, combine_multiroute_dom.
Qed.

Lemma combine_multiroutes_frame h ms l k :
  fields (combine_multiroutes h ms).1 l !! k ≠ fields h l !! k ->
  k = "referencePoints" /\
  exists m', m' ∈ (combine_multiroutes h ms).2 /\ multirouteModel m' = Some l.
Proof.
  revert h. induction ms as [|m ms IH]; intros h; [simpl; congruence|].
  rewrite combine_multiroutes_cons; simpl. intros Hne.
  destruct (decide (fields (combine_multiroutes (combine_multiroute h m).1 ms).1 l !! k
                    = fields (combine_multiroute h m).1 l !! k)) as [Heq|Hne'].
  - rewrite Heq in Hne. apply combine_multiroute_frame in Hne as [-> Hm].
    split; [reflexivity|]. eexists; split; [apply list_elem_of_here|exact Hm].
  - apply IH in Hne' as [-> (m'&Hin&Hm)].
    split; [reflexivity|]. exists m'. split; [apply list_elem_of_further, Hin|exact Hm].
Qed.

Lemma combine_multiroutes_written h ms m' l :
  m' ∈ (combine_multiroutes h ms).2 -> multirouteModel m' = Some l ->
  exists m'', m'' ∈ (combine_multiroutes h ms).2 /\ multirouteModel m'' = Some l /\
    fields (combine_multiroutes h ms).1 l !! "referencePoints" = Some (referencePoints m'').
Proof.
  revert h m'. induction ms as [|m ms IH]; intros h m'; [simpl; intros Hin; inversion Hin|].
  rewrite combine_multiroutes_cons; simpl. intros Hin Hm.
  set (h1 := (combine_multiroute h m).1) in *.
  set (m1 := (combine_multiroute h m).2) in *.
  destruct (decide (Exists (fun x => multirouteModel x = Some l) (combine_multiroutes h1 ms).2))
    as [Hex|Hnex].
  - apply Exists_exists in Hex as (x&Hx&Hxm).
    destruct (IH h1 x Hx Hxm) as (m''&?&?&?).
    exists m''. split; [apply list_elem_of_further; assumption|auto].
  - apply elem_of_cons in Hin as [->|Hin].
    + exists m1. split; [apply list_elem_of_here|]. split; [assumption|].
      destruct (decide (fields (combine_multiroutes h1 ms).1 l !! "referencePoints"
                        = fields h1 l !! "referencePoints")) as [->|Hne].
      * replace (referencePoints m1) with (referencePoints m)
          by (symmetry; apply (combine_multiroute_combined h m)).
        apply combine_multiroute_written, Hm.
      * apply combine_multiroutes_frame in Hne as [_ (x&?&?)].
        exfalso. apply Hnex, Exists_exists. eauto.
    + exfalso. apply Hnex, Exists_exists. eauto.
Qed.

Lemma combineInputs_unfold st :
  _combineInputs st =
  let h2 := Js.set (Js.set (heap st) (mapState st) "zoom" (zoom st))
                   (mapState st) "center" (center st) in
  with_heap (combine_multiroutes h2 (multiroutes st)).1
            (with_multiroutes (combine_multiroutes h2 (multiroutes st)).2 st).
Proof.
  unfold _combineInputs; simpl.
  destruct (combine_multiroutes _ (multiroutes st)); reflexivity.
Qed.

End YandexMapFacts.

Section YandexMapLifecycle.
Import Js YandexMap.

Example unique_id_of_255 :
  _uniqueMapId (ngOnInit 255 (sample (VNum 10) VUndefined)) = Some "fff".
Proof. reflexivity. Qed.

Example no_emission_no_createMap :
  calls (ngOnInit 255 (sample (VNum 10) VUndefined)) = [InitMap].
Proof. reflexivity. Qed.

Lemma on_initMap_unfold st :
  on_initMap st =
  with_trace (trace st ++
              ((fun c => (c, heap (_combineInputs st))) <$>
                 (CreateMap (_uniqueMapId st) (mapState st) (mapOptions st)
                    :: children_calls (_combineInputs st))))
             (_combineInputs st).
Proof.
  unfold on_initMap, _setPlacemarks, _createMultiroute, _createGeoObject, children_calls.
  rewrite !forEach_call. rewrite combineInputs_unfold. simpl.
  unfold with_trace, with_heap, with_multiroutes, call; simpl.
  rewrite !fmap_app, <- !list_fmap_compose, <- !app_assoc. reflexivity.
Qed.

Lemma deliver_stopped pending done st :
  Forall (fun s => Rx.stopped s = true) pending ->
  deliver pending done st = with_subscribers (done ++ pending) st.
Proof.
  intros H. revert done. induction H as [|s pending Hs _ IH]; intros done; simpl.
  - rewrite app_nil_r. reflexivity.
  - rewrite (next_stopped _ Hs). rewrite IH, <- app_assoc. reflexivity.
Qed.

Lemma initMap_emits_first st :
  subscribers st = [Rx.take 1] ->
  initMap_emits st =
  with_subscribers [ {| Rx.total := 1; Rx.count := 1; Rx.stopped := true |} ] (on_initMap st).
Proof. unfold initMap_emits. intros ->. reflexivity. Qed.

Lemma initMap_emits_stopped st :
  Forall (fun s => Rx.stopped s = true) (subscribers st) ->
  initMap_emits st = st.
Proof.
  intros H. unfold initMap_emits. rewrite (deliver_stopped _ _ _ H).
  apply with_subscribers_id.
Qed.

Lemma iter_idempotent {A} (f : A -> A) (x : A) n :
  f (f x) = f x -> Nat.iter (S n) f x = f x.
Proof.
  intros H. induction n as [|n IH]; [reflexivity|].
  change (Nat.iter (S (S n)) f x) with (f (Nat.iter (S n) f x)).
  rewrite IH. exact H.
Qed.

(** After the first emission the [take(1)] subscriber has completed: more
    emissions change nothing. *)
Lemma initMap_emits_n_first st n :
  subscribers st = [Rx.take 1] ->
  initMap_emits_n (S n) st = initMap_emits st.
Proof.
  intros H. unfold initMap_emits_n. apply iter_idempotent.
  apply initMap_emits_stopped. rewrite (initMap_emits_first _ H). simpl.
  repeat constructor.
Qed.

Lemma ngOnInit_subscribers st r :
  subscribers st = [] -> subscribers (ngOnInit r st) = [Rx.take 1].
Proof. intros H. simpl. rewrite H. reflexivity. Qed.

End YandexMapLifecycle.

Section YandexMapClaims.
Import Js YandexMap.

Lemma children_calls_no_createMap st :
  Forall (fun c => is_createMap c = false) (children_calls st).
Proof.
  unfold children_calls. rewrite !Forall_app, !Forall_fmap.
  repeat split; apply Forall_true; intros; reflexivity.
Qed.

(** The whole trace of a component that is initialised and then sees the
    map service announce the API once or more. *)
Lemma trace_after_init st r n :
  subscribers st = [] ->
  trace (initMap_emits_n (S n) (ngOnInit r st)) =
  trace st ++ (InitMap, heap st) ::
    ((fun c => (c, heap (_combineInputs st))) <$>
       (CreateMap (Some (String.append "f" (toString16 r))) (mapState st) (mapOptions st)
          :: children_calls (_combineInputs st))).
Proof.
  intros H.
  rewrite initMap_emits_n_first by (apply ngOnInit_subscribers, H).
  rewrite initMap_emits_first by (apply ngOnInit_subscribers, H).
  change (trace (with_subscribers ?s ?x)) with (trace x).
  rewrite on_initMap_unfold.
  change (trace (with_trace ?t ?x)) with t.
  rewrite !combineInputs_unfold. simpl. rewrite <- app_assoc. reflexivity.
Qed.

Section CombineInputs.
Variable st : State.

Let h2 := Js.set (Js.set (heap st) (mapState st) "zoom" (zoom st))
                 (mapState st) "center" (center st).

Lemma combineInputs_keeps k l :
  k ≠ "referencePoints" ->
  fields (heap (_combineInputs st)) l !! k = fields h2 l !! k.
Proof.
  intros Hk. rewrite combineInputs_unfold. simpl. fold h2.
  destruct (decide (fields (combine_multiroutes h2 (multiroutes st)).1 l !! k
                    = fields h2 l !! k)) as [|Hne]; [assumption|].
  apply combine_multiroutes_frame in Hne as [? _]. contradiction.
Qed.

Lemma fields_h2 :
  fields h2 (mapState st) =
  <["center" := center st]> (<["zoom" := zoom st]> (fields (heap st) (mapState st))).
Proof. unfold h2. rewrite !fields_set, !decide_True by reflexivity. reflexivity. Qed.

Lemma combineInputs_zoom :
  fields (heap (_combineInputs st)) (mapState st) !! "zoom" = Some (zoom st).
Proof.
  rewrite combineInputs_keeps by discriminate. rewrite fields_h2.
  rewrite lookup_insert_ne by discriminate. apply lookup_insert_eq.
Qed.

Lemma combineInputs_center :
  fields (heap (_combineInputs st)) (mapState st) !! "center" = Some (center st).
Proof.
  rewrite combineInputs_keeps by discriminate. rewrite fields_h2. apply lookup_insert_eq.
Qed.

Lemma combineInputs_models :
  Forall2 (combined ({[mapState st]} ∪ dom (heap st)))
          (multiroutes st) (multiroutes (_combineInputs st)).
Proof.
  rewrite combineInputs_unfold. simpl. fold h2.
  eapply Forall2_impl; [apply combine_multiroutes_combined|].
  intros m m'. apply combined_weaken. unfold h2. rewrite !dom_set.
  apply union_subseteq_r.
Qed.

Lemma combineInputs_only l k :
  fields (heap (_combineInputs st)) l !! k ≠ fields (heap st) l !! k ->
  (l = mapState st /\ (k = "zoom" \/ k = "center")) \/
  (k = "referencePoints" /\
   exists m', m' ∈ multiroutes (_combineInputs st) /\ multirouteModel m' = Some l).
Proof.
  rewrite combineInputs_unfold. simpl. fold h2. intros Hne.
  destruct (decide (fields (combine_multiroutes h2 (multiroutes st)).1 l !! k
                    = fields h2 l !! k)) as [Heq|Hne'].
  - left. rewrite Heq in Hne. unfold h2 in Hne. rewrite !fields_set in Hne.
    destruct (decide (mapState st = l)) as [<-|]; [|contradiction].
    rewrite decide_True in Hne by reflexivity.
    split; [reflexivity|].
    destruct (decide (k = "center")) as [->|Hc]; [auto|].
    destruct (decide (k = "zoom")) as [->|Hz]; [auto|].
    rewrite !lookup_insert_ne in Hne by congruence. congruence.
  - right. apply combine_multiroutes_frame in Hne'. exact Hne'.
Qed.

(** When no two multiroutes share a model, each model holds the
    [referencePoints] of its own multiroute. *)
Lemma combineInputs_referencePoints m' l :
  NoDup (multirouteModel <$> multiroutes (_combineInputs st)) ->
  m' ∈ multiroutes (_combineInputs st) -> multirouteModel m' = Some l ->
  fields (heap (_combineInputs st)) l !! "referencePoints" = Some (referencePoints m').
Proof.
  rewrite combineInputs_unfold. simpl. fold h2. intros Hnd Hin Hm.
  destruct (combine_multiroutes_written h2 (multiroutes st) m' l Hin Hm)
    as (m'' & Hin'' & Hm'' & Hw).
  apply list_elem_of_lookup in Hin as [i Hi].
  apply list_elem_of_lookup in Hin'' as [j Hj].
  assert (i = j) as ->.
  { eapply NoDup_lookup; [exact Hnd| |]; rewrite list_lookup_fmap.
    - rewrite Hi. simpl. rewrite Hm. reflexivity.
    - rewrite Hj. simpl. rewrite Hm''. reflexivity. }
  rewrite Hi in Hj. injection Hj as <-. exact Hw.
Qed.

End CombineInputs.

(** C10: [_combineInputs] writes the [zoom] and [center] inputs into the
    map state object, whatever their value, [undefined] included; it gives
    every multiroute a model (its own, or a new object when it has none) and
    writes [referencePoints] there.  No other property of any object
    changes, and nothing else of the component does. *)
Theorem combineInputs_frame st :
  fields (heap (_combineInputs st)) (mapState st) !! "zoom" = Some (zoom st) /\
  fields (heap (_combineInputs st)) (mapState st) !! "center" = Some (center st) /\
  Forall2 (combined ({[mapState st]} ∪ dom (heap st)))
          (multiroutes st) (multiroutes (_combineInputs st)) /\
  (forall m' l,
      m' ∈ multiroutes (_combineInputs st) -> multirouteModel m' = Some l ->
      exists m'', m'' ∈ multiroutes (_combineInputs st) /\ multirouteModel m'' = Some l /\
        fields (heap (_combineInputs st)) l !! "referencePoints" = Some (referencePoints m'')) /\
  (forall l k,
      fields (heap (_combineInputs st)) l !! k ≠ fields (heap st) l !! k ->
      (l = mapState st /\ (k = "zoom" \/ k = "center")) \/
      (k = "referencePoints" /\
       exists m', m' ∈ multiroutes (_combineInputs st) /\ multirouteModel m' = Some l)) /\
  _combineInputs st =
    with_heap (heap (_combineInputs st))
              (with_multiroutes (multiroutes (_combineInputs st)) st).
Proof.
  split; [apply combineInputs_zoom|]. split; [apply combineInputs_center|].
  split; [apply combineInputs_models|]. split; [|split; [apply combineInputs_only|]].
  - rewrite combineInputs_unfold. simpl. intros m' l. apply combine_multiroutes_written.
  - rewrite combineInputs_unfold. reflexivity.
Qed.



(** C3: once the map is created, the content children are registered with
    the service: after [createMap] come the [createPlacemark] calls, one per
    placemark in list order, then the [createMultiroute] calls, one per
    multiroute (with its combined model), then the [createGeoObject] calls,
    one per geo-object; further emissions add no call. *)
Theorem children_registered_in_order st r n :
  subscribers st = [] ->
  calls (initMap_emits_n (S n) (ngOnInit r st)) =
    calls st ++
    [InitMap;
     CreateMap (Some (String.append "f" (toString16 r))) (mapState st) (mapOptions st)] ++
    (placemark_call <$> placemarks st) ++
    (multiroute_call <$> multiroutes (initMap_emits_n (S n) (ngOnInit r st))) ++
    (geoObject_call <$> geoObjects st) /\
  Forall2 (combined ({[mapState st]} ∪ dom (heap st)))
          (multiroutes st) (multiroutes (initMap_emits_n (S n) (ngOnInit r st))).
Proof.
  intros H.
  assert (Hm : multiroutes (initMap_emits_n (S n) (ngOnInit r st))
               = multiroutes (_combineInputs st)).
  { rewrite initMap_emits_n_first by (apply ngOnInit_subscribers, H).
    rewrite initMap_emits_first by (apply ngOnInit_subscribers, H).
    change (multiroutes (with_subscribers ?s ?x)) with (multiroutes x).
    rewrite on_initMap_unfold.
    change (multiroutes (with_trace ?t ?x)) with (multiroutes x).
    rewrite !combineInputs_unfold. reflexivity. }
  split.
  - unfold calls. rewrite (trace_after_init st r n H), Hm.
    rewrite fmap_app, fmap_cons, <- list_fmap_compose. simpl.
    rewrite list_fmap_id. unfold children_calls.
    rewrite combineInputs_unfold. reflexivity.
  - rewrite Hm. apply combineInputs_models.
Qed.

Lemma children_registered_in_order_witness :
  calls (initMap_emits_n 2 (ngOnInit 255 (sample (VNum 10) VUndefined))) =
  [InitMap;
   CreateMap (Some "fff") 1%positive 2%positive;
   CreatePlacemark (VNum 1) VUndefined VUndefined;
   CreateMultiroute (Some 4%positive) VUndefined;
   CreateMultiroute (Some 3%positive) VNull;
   CreateGeoObject (VNum 2) VUndefined].
Proof.
  exact (proj1 (children_registered_in_order (sample (VNum 10) VUndefined) 255 1 eq_refl)).
Defined.

(** C5, as stated, fails: the map state object that [createMap] receives
    has been modified.  A user-supplied [{ controls: 7 }] with the [zoom]
    input bound to 10 arrives with a [zoom] property it did not have. *)
Lemma createMap_mapState_modified :
  exists h,
    trace (initMap_emits (ngOnInit 255 (sample (VNum 10) VUndefined))) !! 1%nat =
      Some (CreateMap (Some "fff") (mapState (sample (VNum 10) VUndefined))
                      (mapOptions (sample (VNum 10) VUndefined)), h) /\
    fields (heap (sample (VNum 10) VUndefined))
           (mapState (sample (VNum 10) VUndefined)) !! "zoom" = None /\
    fields h (mapState (sample (VNum 10) VUndefined)) !! "zoom" = Some (VNum 10) /\
    fields h (mapState (sample (VNum 10) VUndefined)) ≠
    fields (heap (sample (VNum 10) VUndefined)) (mapState (sample (VNum 10) VUndefined)).
Proof.
  exists (heap (_combineInputs (sample (VNum 10) VUndefined))).
  assert (Hz : fields (heap (_combineInputs (sample (VNum 10) VUndefined)))
                 (mapState (sample (VNum 10) VUndefined)) !! "zoom" = Some (VNum 10))
    by (vm_compute; reflexivity).
  split; [vm_compute; reflexivity|]. split; [vm_compute; reflexivity|].
  split; [exact Hz|]. intros Heq. rewrite Heq in Hz. vm_compute in Hz. discriminate Hz.
Qed.

(** C5, amended: [createMap] receives the user-supplied map state object
    itself, in which the wrapper has overwritten [zoom] and [center] with
    the inputs of those names and touched no other property (the object not
    being the model of a multiroute as well). *)
Theorem createMap_mapState st r n :
  subscribers st = [] ->
  Some (mapState st) ∉ multirouteModel <$> multiroutes st ->
  exists h rest,
    trace (initMap_emits_n (S n) (ngOnInit r st)) =
      trace st ++ (InitMap, heap st)
        :: (CreateMap (Some (String.append "f" (toString16 r))) (mapState st) (mapOptions st), h)
        :: rest /\
    Forall (fun c => is_createMap c.1 = false) rest /\
    fields h (mapState st) =
      <["center" := center st]> (<["zoom" := zoom st]> (fields (heap st) (mapState st))).
Proof.
  intros H Hnot. eexists _, _. split; [|split].
  - rewrite (trace_after_init st r n H). simpl. reflexivity.
  - rewrite Forall_fmap. apply children_calls_no_createMap.
  - pose proof (combineInputs_zoom st) as Hz.
    pose proof (combineInputs_center st) as Hc.
    pose proof (combineInputs_models st) as Hcomb.
    pose proof (combineInputs_only st) as Hframe.
    apply map_eq. intros k.
    destruct (decide (k = "center")) as [->|Hkc].
    { rewrite lookup_insert_eq. exact Hc. }
    rewrite lookup_insert_ne by congruence.
    destruct (decide (k = "zoom")) as [->|Hkz].
    { rewrite lookup_insert_eq. exact Hz. }
    rewrite lookup_insert_ne by congruence.
    destruct (decide (fields (heap (_combineInputs st)) (mapState st) !! k
                      = fields (heap st) (mapState st) !! k)) as [|Hne]; [assumption|].
    exfalso. apply Hframe in Hne as [[_ [?|?]]|[_ (m' & Hin & Hm')]]; [contradiction..|].
    apply list_elem_of_lookup in Hin as [i Hi].
    destruct (Forall2_lookup_r _ _ _ _ _ Hcomb Hi) as (m & Him & _ & _ & Hmodel).
    destruct (multirouteModel m) as [l|] eqn:Em.
    + apply Hnot. apply list_elem_of_fmap. exists m. split; [congruence|].
      apply list_elem_of_lookup. eauto.
    + destruct Hmodel as (l & Hl & Hfresh). apply Hfresh.
      rewrite Hm' in Hl. injection Hl as <-. apply elem_of_union_l, elem_of_singleton. reflexivity.
Qed.

Lemma createMap_mapState_witness :
  exists h rest,
    trace (initMap_emits_n 1 (ngOnInit 255 (sample (VNum 10) VUndefined))) =
      trace (sample (VNum 10) VUndefined) ++
        (InitMap, heap (sample (VNum 10) VUndefined))
        :: (CreateMap (Some (String.append "f" (toString16 255)))
                      (mapState (sample (VNum 10) VUndefined))
                      (mapOptions (sample (VNum 10) VUndefined)), h)
        :: rest /\
    Forall (fun c => is_createMap c.1 = false) rest /\
    fields h (mapState (sample (VNum 10) VUndefined)) =
      <["center" := center (sample (VNum 10) VUndefined)]>
        (<["zoom" := zoom (sample (VNum 10) VUndefined)]>
           (fields (heap (sample (VNum 10) VUndefined))
                   (mapState (sample (VNum 10) VUndefined)))).
Proof.
  apply (createMap_mapState (sample (VNum 10) VUndefined) 255 0 eq_refl).
  refine (bool_decide_unpack _ _). vm_compute. exact I.
Defined.

End YandexMapClaims.

(** ** Module registration *)

Section NgModuleClaims.
Import NgModule.

(** C7: [forRoot(config)] names [AngularYandexMapsModule] as the module and
    lists one provider, which binds [YA_MAP_CONFIG] to [config] itself. *)
Theorem forRoot_provides_config (config : Js.value) :
  ngModule (forRoot config) = AngularYandexMapsModule /\
  providers (forRoot config) = [ {| provide := YA_MAP_CONFIG; useValue := config |} ] /\
  length (providers (forRoot config)) = 1 /\
  Forall (fun p => provide p = YA_MAP_CONFIG /\ useValue p = config)
         (providers (forRoot config)).
Proof.
  split; [reflexivity|]. split; [reflexivity|]. split; [reflexivity|].
  simpl. constructor; [split; reflexivity|constructor].
Qed.

End NgModuleClaims.

(** ** [YaClustererDirective] *)

Section ClustererFacts.
Import Js Ng Clusterer.
Context {P G : Type} `{!ChildDirective P} `{!ChildDirective G}.
Implicit Types st : State P G.

(** *** What each operation leaves alone *)

Lemma visit_shell map c r st : shell (visit map c r st) = shell st.
Proof.
  unfold visit. destruct r as [i|i].
  - destruct (placemark_store st !! i) as [p|]; [|reflexivity].
    destruct (truthy (child_id p)); [reflexivity|].
    destruct (child_create map c p); reflexivity.
  - destruct (geoObject_store st !! i) as [g|]; [|reflexivity].
    destruct (truthy (child_id g)); [reflexivity|].
    destruct (child_create map c g); reflexivity.
Qed.

Lemma visits_shell map c rs st :
  shell (foldl (fun s r => visit map c r s) st rs) = shell st.
Proof.
  revert st. induction rs as [|r rs IH]; intros st; simpl; [reflexivity|].
  rewrite IH. apply visit_shell.
Qed.

Lemma on_list_shell k map c l st : shell (on_list k map c l st) = shell st.
Proof. apply visits_shell. Qed.

Lemma shell_listeners st st' : shell st' = shell st -> listeners st' = listeners st.
Proof. unfold shell. intros [= ]. assumption. Qed.

Lemma shell_clusterer st st' : shell st' = shell st -> _clusterer st' = _clusterer st.
Proof. unfold shell. intros [= ]. assumption. Qed.

Lemma notify_shell k l s st : shell (notify k l s st) = shell st.
Proof. unfold notify. destruct (decide _); [apply on_list_shell|reflexivity]. Qed.

Lemma notifies_shell k l subs st :
  shell (foldl (fun s sub => notify k l sub s) st subs) = shell st.
Proof.
  revert st. induction subs as [|s subs IH]; intros st; simpl; [reflexivity|].
  rewrite IH. apply notify_shell.
Qed.

Lemma changes_emit_listeners k l st :
  listeners (changes_emit k l st) = listeners st.
Proof.
  unfold changes_emit. rewrite (shell_listeners _ _ (notifies_shell _ _ _ _)). reflexivity.
Qed.

Lemma fire_unfold c e st :
  fire c e st =
  foldl (fun s nh => if listens nh.1 (type (originalEvent e)) then run_handler nh.2 e s else s)
        st (default [] (listeners st !! c)).
Proof. reflexivity. Qed.

Lemma handlers_fold_listeners e (hs : list (EventName * Handler)) st :
  listeners (foldl (fun s nh => if listens nh.1 (type (originalEvent e))
                                then run_handler nh.2 e s else s) st hs)
  = listeners st.
Proof.
  revert st. induction hs as [|h hs IH]; intros st; simpl; [reflexivity|].
  rewrite IH. destruct (listens _ _); reflexivity.
Qed.

Lemma fire_listeners c e st : listeners (fire c e st) = listeners st.
Proof. apply handlers_fold_listeners. Qed.

(** *** [createClusterer] *)

Lemma createClusterer_fst map st : (createClusterer map st).1 = length (listeners st).
Proof. reflexivity. Qed.

Lemma createClusterer_unfold map st :
  (createClusterer map st).2 =
  let c := length (listeners st) in
  let st1 := (new_clusterer st).2 in
  let st2 := on_list Placemarks map c (placemarks st1) st1 in
  let st3 := _sub_add {| sub_kind := Placemarks; sub_map := map; sub_clusterer := c |} st2 in
  let st4 := on_list GeoObjects map c (geoObjects st3) st3 in
  let st5 := _sub_add {| sub_kind := GeoObjects; sub_map := map; sub_clusterer := c |} st4 in
  _addEventListeners st5.
Proof. reflexivity. Qed.

Lemma createClusterer_clusterer map st :
  _clusterer (createClusterer map st).2 = Some (createClusterer map st).1.
Proof.
  rewrite createClusterer_unfold, createClusterer_fst. cbv zeta.
  unfold _addEventListeners.
  set (st4 := on_list GeoObjects _ _ _ _).
  assert (H4 : _clusterer st4 = Some (length (listeners st))).
  { unfold st4. rewrite (shell_clusterer _ _ (on_list_shell _ _ _ _ _)). simpl.
    rewrite (shell_clusterer _ _ (on_list_shell _ _ _ _ _)). reflexivity. }
  simpl. rewrite H4. simpl. unfold events_add, sdk_call, emit, _sub_add. simpl. exact H4.
Qed.

Lemma createClusterer_listeners map st :
  listeners (createClusterer map st).2 =
  listeners st ++ [handlers (length (listeners st))].
Proof.
  rewrite createClusterer_unfold. cbv zeta.
  unfold _addEventListeners.
  set (st4 := on_list GeoObjects _ _ _ _).
  assert (H4 : _clusterer st4 = Some (length (listeners st)) /\
               listeners st4 = listeners st ++ [[]]).
  { unfold st4. split.
    - rewrite (shell_clusterer _ _ (on_list_shell _ _ _ _ _)). simpl.
      rewrite (shell_clusterer _ _ (on_list_shell _ _ _ _ _)). reflexivity.
    - rewrite (shell_listeners _ _ (on_list_shell _ _ _ _ _)). simpl.
      rewrite (shell_listeners _ _ (on_list_shell _ _ _ _ _)). reflexivity. }
  destruct H4 as [Hc Hl]. simpl. rewrite Hc. simpl.
  unfold events_add, sdk_call, emit, _sub_add. simpl. rewrite Hl.
  rewrite !alter_app_r_alt, Nat.sub_diag by reflexivity. reflexivity.
Qed.

(** *** Listeners are only ever added for a new clusterer *)

Lemma step_listeners st op :
  exists extra, listeners (step st op) = listeners st ++ extra.
Proof.
  destruct op as [changes|map|k l|c e|]; simpl.
  - exists []. rewrite app_nil_r. unfold ngOnChanges, _updateClusterer.
    destruct (_clusterer (assign_inputs changes st)); [|reflexivity].
    destruct (changes !! "options"); reflexivity.
  - eexists. apply createClusterer_listeners.
  - exists []. rewrite app_nil_r. apply changes_emit_listeners.
  - exists []. rewrite app_nil_r. apply fire_listeners.
  - exists []. rewrite app_nil_r. reflexivity.
Qed.

Lemma run_listeners ops st :
  exists extra, listeners (run ops st) = listeners st ++ extra.
Proof.
  unfold run. revert st. induction ops as [|op ops IH]; intros st; simpl.
  - exists []. rewrite app_nil_r. reflexivity.
  - destruct (IH (step st op)) as [e2 H2]. destruct (step_listeners st op) as [e1 H1].
    exists (e1 ++ e2). rewrite H2, H1, app_assoc. reflexivity.
Qed.

Lemma created_listeners map ops st :
  listeners (run ops (createClusterer map st).2) !! (createClusterer map st).1
  = Some (handlers (createClusterer map st).1).
Proof.
  destruct (run_listeners ops (createClusterer map st).2) as [extra ->].
  rewrite createClusterer_listeners, createClusterer_fst, <- app_assoc.
  apply list_lookup_middle. reflexivity.
Qed.

(** *** Once created, the clusterer reference stays set *)

Lemma fire_clusterer c e st : _clusterer (fire c e st) = _clusterer st.
Proof.
  unfold fire. generalize (default [] (listeners st !! c)). intros hs.
  revert st. induction hs as [|h hs IH]; intros st; simpl; [reflexivity|].
  rewrite IH. destruct (listens _ _); reflexivity.
Qed.

Lemma step_clusterer st op :
  is_Some (_clusterer st) -> is_Some (_clusterer (step st op)).
Proof.
  intros Hs. destruct op as [changes|map|k l|c e|]; cbn [step].
  - unfold ngOnChanges, _updateClusterer.
    change (_clusterer (assign_inputs changes st)) with (_clusterer st).
    destruct Hs as [c Hc]. rewrite Hc.
    destruct (changes !! "options"); simpl; rewrite Hc; eauto.
  - rewrite createClusterer_clusterer. eauto.
  - unfold changes_emit.
    rewrite (shell_clusterer _ _ (notifies_shell _ _ _ _)). exact Hs.
  - rewrite fire_clusterer. exact Hs.
  - exact Hs.
Qed.

Lemma run_clusterer ops st :
  is_Some (_clusterer st) -> is_Some (_clusterer (run ops st)).
Proof.
  unfold run. revert st. induction ops as [|op ops IH]; intros st Hs; simpl; [exact Hs|].
  apply IH, step_clusterer, Hs.
Qed.

Lemma created_clusterer map ops st :
  is_Some (_clusterer (run ops (createClusterer map st).2)).
Proof. apply run_clusterer. rewrite createClusterer_clusterer. eauto. Qed.

Lemma fire_handlers c e st :
  listeners st !! c = Some (handlers c) ->
  fire c e st =
  foldl (fun s nh => if listens nh.1 (type (originalEvent e)) then run_handler nh.2 e s else s)
        st (handlers c).
Proof. intros H. rewrite fire_unfold, H. reflexivity. Qed.

End ClustererFacts.

(** Decides which of the four handlers listen to a given event type. *)
Ltac dispatch :=
  unfold Clusterer.handlers;
  cbn [foldl fst snd Clusterer.sdk_event Clusterer.originalEvent Clusterer.type];
  repeat match goal with
         | |- context [Clusterer.listens ?n ?t] =>
             let b := eval vm_compute in (Clusterer.listens n t) in
             change (Clusterer.listens n t) with b
         end;
  cbn iota.

Section ClustererChildren.
Import Js Ng Clusterer.
Context {P G : Type} `{!ChildDirective P} `{!ChildDirective G}.
Implicit Types st : State P G.


















End ClustererChildren.

Section ClustererClaims.
Import Js Ng Clusterer.
Context {P G : Type} `{!ChildDirective P} `{!ChildDirective G}.
Implicit Types st : State P G.

(** C1: on a clusterer made by [createClusterer], whatever the directive
    goes through afterwards, an SDK event of type [hintopen] or [hintclose]
    makes the [hint] output emit once, and events of type [mapchange],
    [optionschange] and [parentchange] make [mapChange], [optionsChange]
    and [parentChange] emit once; the emitted value carries that clusterer,
    the type of the original event and the event; nothing else changes. *)
Theorem events_reemitted map ops tg st :
  fire (createClusterer map st).1 (sdk_event "hintopen" tg) (run ops (createClusterer map st).2)
  = emit hint (YaEvent (createClusterer map st).1 "hintopen" (sdk_event "hintopen" tg))
         (run ops (createClusterer map st).2) /\
  fire (createClusterer map st).1 (sdk_event "hintclose" tg) (run ops (createClusterer map st).2)
  = emit hint (YaEvent (createClusterer map st).1 "hintclose" (sdk_event "hintclose" tg))
         (run ops (createClusterer map st).2) /\
  fire (createClusterer map st).1 (sdk_event "mapchange" tg) (run ops (createClusterer map st).2)
  = emit mapChange (YaEvent (createClusterer map st).1 "mapchange" (sdk_event "mapchange" tg))
         (run ops (createClusterer map st).2) /\
  fire (createClusterer map st).1 (sdk_event "optionschange" tg) (run ops (createClusterer map st).2)
  = emit optionsChange
         (YaEvent (createClusterer map st).1 "optionschange" (sdk_event "optionschange" tg))
         (run ops (createClusterer map st).2) /\
  fire (createClusterer map st).1 (sdk_event "parentchange" tg) (run ops (createClusterer map st).2)
  = emit parentChange
         (YaEvent (createClusterer map st).1 "parentchange" (sdk_event "parentchange" tg))
         (run ops (createClusterer map st).2).
Proof.
  pose proof (created_listeners map ops st) as Hl.
  repeat split; rewrite (fire_handlers _ _ _ Hl); dispatch; reflexivity.
Qed.

(** C4: once a clusterer exists, [ngOnChanges] with a change of [options]
    makes one SDK call, [clusterer.options.set] with the change's current
    value as it is, and does nothing else. *)
Theorem options_forwarded st c changes ch :
  _clusterer st = Some c ->
  changes !! "options" = Some ch ->
  ngOnChanges changes st = sdk_call (OptionsSet c (currentValue ch)) st.
Proof.
  intros Hc Hch. unfold ngOnChanges, _updateClusterer. rewrite Hc, Hch. reflexivity.
Qed.

(** C9: before [createClusterer] has run, [ngOnChanges] returns with the
    directive, the SDK trace and everything else as they were. *)
Theorem ngOnChanges_before_create st changes :
  _clusterer st = None ->
  ngOnChanges changes st = st.
Proof.
  intros Hc. unfold ngOnChanges, _updateClusterer. rewrite Hc. reflexivity.
Qed.


End ClustererClaims.

Section ClustererWitnesses.
Import Js Ng Clusterer.

(** A whole life of the sample directive: creation, a re-emission of the
    placemarks (with a reference to no child), an [options] change, two SDK
    events, destruction, a re-emission after it, and a second creation. *)
Example sample_directive_life :
  let st := run [ CreateClusterer 0;
                  Changes Placemarks [0; 1; 2];
                  OnChanges {[ "options" := {| previousValue := VNum 1;
                                               currentValue := VNum 2;
                                               firstChange := false |} ]};
                  Fire 0 (sdk_event "hintopen" VNull);
                  Fire 0 (sdk_event "click" VNull);
                  OnDestroy;
                  Changes GeoObjects [0];
                  CreateClusterer 1 ] sample_directive in
  sdk st =
    [ NewClusterer (VNum 1);
      Add 0 (PlacemarkRef 0) (VRef 10%positive);
      Add 0 (PlacemarkRef 1) (VRef 11%positive);
      Add 0 (GeoObjectRef 0) (VRef 12%positive) ]
    ++ ((fun nh => EventsAdd 0 nh.1 nh.2) <$> handlers 0)
    ++ [ OptionsSet 0 (VNum 2); NewClusterer (VNum 2) ]
    ++ ((fun nh => EventsAdd 1 nh.1 nh.2) <$> handlers 1) /\
  emitted st =
    [ (ready, YaReadyEvent 0);
      (hint, YaEvent 0 "hintopen" (sdk_event "hintopen" VNull));
      (ready, YaReadyEvent 1) ].
Proof. vm_compute. split; reflexivity. Qed.

Lemma options_forwarded_witness :
  ngOnChanges {[ "options" := {| previousValue := VNum 1; currentValue := VNum 2;
                                 firstChange := false |} ]}
              (createClusterer 0 sample_directive).2
  = sdk_call (OptionsSet 0 (VNum 2)) (createClusterer 0 sample_directive).2.
Proof.
  apply (options_forwarded (createClusterer 0 sample_directive).2 0
           {[ "options" := {| previousValue := VNum 1; currentValue := VNum 2;
                              firstChange := false |} ]}
           {| previousValue := VNum 1; currentValue := VNum 2; firstChange := false |}).
  - vm_compute. reflexivity.
  - vm_compute. reflexivity.
Defined.

Lemma ngOnChanges_before_create_witness :
  ngOnChanges {[ "options" := {| previousValue := VNum 1; currentValue := VNum 2;
                                 firstChange := false |} ]}
              sample_directive
  = sample_directive.
Proof.
  apply (ngOnChanges_before_create sample_directive). reflexivity.
Defined.



End ClustererWitnesses.

(** ** [YaControlDirective] *)

Section ControlClaims.
Import Js Control.

(** C6: when [parameters] changes on a directive whose control exists, the
    hook completes with one more effect, a console warning; the control is
    the same, no SDK call is made on it, and only the assigned input differs
    in the directive. *)
Theorem parameters_change_warns st c v :
  control st = Some c ->
  parameters_change v st =
  {| type := type st; parameters := v; control := Some c;
     controls_made := controls_made st;
     effects := effects st ++ [ConsoleWarn] |}.
Proof.
  intros Hc. unfold parameters_change, ngOnChanges. simpl. rewrite Hc. reflexivity.
Qed.

Lemma parameters_change_warns_witness :
  effects (parameters_change (VNum 5) (on_map 0 sample_control)) =
  [NewControl "RoutePanel" VUndefined; ControlsAdd 0 0; EmitReady 0; ConsoleWarn].
Proof.
  rewrite (parameters_change_warns (on_map 0 sample_control) 0 (VNum 5) eq_refl).
  reflexivity.
Defined.

End ControlClaims.

(** * Further properties of [YaClustererDirective] *)

Section ClustererOutputs.
Import Js Ng Clusterer.
Context {P G : Type} `{!ChildDirective P} `{!ChildDirective G}.
Implicit Types st : State P G.

Lemma shell_emitted st st' : shell st' = shell st -> emitted st' = emitted st.
Proof. unfold shell. intros [= ]. assumption. Qed.

Lemma shell_closed st st' : shell st' = shell st -> _sub_closed st' = _sub_closed st.
Proof. unfold shell. intros [= ]. assumption. Qed.

Lemma shell_subs st st' : shell st' = shell st -> _sub st' = _sub st.
Proof. unfold shell. intros [= ]. assumption. Qed.

Lemma listens_unhandled c t :
  t ∉ handled_types -> Forall (fun nh => listens nh.1 t = false) (handlers c).
Proof.
  intros Ht. unfold handlers.
  repeat constructor; simpl; apply bool_decide_eq_false_2; intros Hc; apply Ht;
    unfold handled_types.
  - apply elem_of_cons in Hc as [->|Hc]; [apply list_elem_of_here|].
    apply list_elem_of_singleton in Hc as ->.
    apply list_elem_of_further, list_elem_of_here.
  - subst t. do 2 apply list_elem_of_further. apply list_elem_of_here.
  - subst t. do 3 apply list_elem_of_further. apply list_elem_of_here.
  - subst t. do 4 apply list_elem_of_further. apply list_elem_of_here.
Qed.

Lemma createClusterer_emitted map st :
  emitted (createClusterer map st).2 =
  emitted st ++ [(ready, YaReadyEvent (length (listeners st)))].
Proof.
  rewrite createClusterer_unfold. cbv zeta. unfold _addEventListeners.
  set (st4 := on_list GeoObjects _ _ _ _).
  assert (H4 : _clusterer st4 = Some (length (listeners st)) /\
               emitted st4 = emitted st).
  { unfold st4. split.
    - rewrite (shell_clusterer _ _ (on_list_shell _ _ _ _ _)). simpl.
      rewrite (shell_clusterer _ _ (on_list_shell _ _ _ _ _)). reflexivity.
    - rewrite (shell_emitted _ _ (on_list_shell _ _ _ _ _)). simpl.
      rewrite (shell_emitted _ _ (on_list_shell _ _ _ _ _)). reflexivity. }
  destruct H4 as [Hc He]. simpl. rewrite Hc. simpl.
  unfold events_add, sdk_call, emit, _sub_add. simpl. rewrite He. reflexivity.
Qed.

Lemma handlers_fold_skip e (hs : list (EventName * Handler)) st :
  Forall (fun nh => listens nh.1 (type (originalEvent e)) = false) hs ->
  foldl (fun s nh => if listens nh.1 (type (originalEvent e)) then run_handler nh.2 e s else s)
        st hs = st.
Proof.
  intros H. revert st. induction H as [|nh hs Hnh _ IH]; intros st; simpl; [reflexivity|].
  rewrite Hnh. apply IH.
Qed.

(** X1: an SDK event whose type is none of [hintclose], [hintopen],
    [mapchange], [optionschange], [parentchange] reaches no handler of a
    clusterer made by [createClusterer]: no output emits and nothing
    changes, whatever the directive went through since the creation. *)
Theorem unhandled_events_ignored map ops e st :
  type (originalEvent e) ∉ handled_types ->
  fire (createClusterer map st).1 e (run ops (createClusterer map st).2)
  = run ops (createClusterer map st).2.
Proof.
  intros Ht. rewrite (fire_handlers _ _ _ (created_listeners map ops st)).
  apply handlers_fold_skip, listens_unhandled, Ht.
Qed.

(** *** [ready] *)

Lemma handlers_fold_readies e (hs : list (EventName * Handler)) st :
  Forall (fun nh : EventName * Handler => emitter nh.2 ≠ ready) hs ->
  filter (fun x => x.1 = ready)
         (emitted (foldl (fun s nh => if listens nh.1 (type (originalEvent e))
                                      then run_handler nh.2 e s else s) st hs))
  = filter (fun x => x.1 = ready) (emitted st).
Proof.
  intros H. revert st. induction H as [|nh hs Hnh _ IH]; intros st; simpl; [reflexivity|].
  rewrite IH. destruct (listens _ _); [|reflexivity].
  simpl. rewrite filter_app, filter_cons_False by exact Hnh.
  rewrite filter_nil, app_nil_r. reflexivity.
Qed.

Lemma step_readies st op :
  no_ready_handler st ->
  no_ready_handler (step st op) /\
  length (listeners (step st op)) =
    (if is_create op then S (length (listeners st)) else length (listeners st)) /\
  filter (fun x => x.1 = ready) (emitted (step st op)) =
    filter (fun x => x.1 = ready) (emitted st) ++
    (if is_create op then [(ready, YaReadyEvent (length (listeners st)))] else []).
Proof.
  intros Hinv. unfold no_ready_handler.
  destruct op as [changes|map|k l|c e|]; cbn [step is_create].
  - assert (Hs : listeners (ngOnChanges changes (assign_inputs changes st)) = listeners st
                 /\ emitted (ngOnChanges changes (assign_inputs changes st)) = emitted st).
    { unfold ngOnChanges, _updateClusterer.
      destruct (_clusterer (assign_inputs changes st)); [|split; reflexivity].
      destruct (changes !! "options"); split; reflexivity. }
    destruct Hs as [-> ->]. rewrite app_nil_r. auto.
  - rewrite createClusterer_listeners, createClusterer_emitted.
    split; [|split].
    + apply Forall_app. split; [exact Hinv|].
      repeat constructor; discriminate.
    + rewrite length_app. simpl. lia.
    + rewrite filter_app. reflexivity.
  - rewrite changes_emit_listeners. unfold changes_emit.
    rewrite (shell_emitted _ _ (notifies_shell _ _ _ _)). simpl.
    rewrite app_nil_r. auto.
  - rewrite fire_listeners. split; [exact Hinv|]. split; [reflexivity|].
    rewrite app_nil_r. unfold fire. apply handlers_fold_readies.
    destruct (listeners st !! c) as [hs|] eqn:E; [|constructor].
    simpl. exact (Forall_lookup_1 _ _ _ _ Hinv E).
  - simpl. rewrite app_nil_r. auto.
Qed.

Lemma run_readies ops st :
  no_ready_handler st ->
  filter (fun x => x.1 = ready) (emitted (run ops st)) =
  filter (fun x => x.1 = ready) (emitted st) ++
  ((fun c => (ready, YaReadyEvent c)) <$> seq (length (listeners st)) (creations ops)).
Proof.
  unfold run, creations. revert st.
  induction ops as [|op ops IH]; intros st Hinv; simpl.
  - rewrite app_nil_r. reflexivity.
  - destruct (step_readies st op Hinv) as (Hinv' & Hlen & Hem).
    rewrite (IH _ Hinv'), Hem, Hlen, <- app_assoc. f_equal.
    rewrite filter_cons. destruct (is_create op); simpl.
    + destruct (decide (true = true)); [|congruence]. reflexivity.
    + destruct (decide (false = true)); [discriminate|]. reflexivity.
Qed.

(** X2: over the whole life of a directive, [ready] emits exactly once per
    clusterer created, in creation order, each time carrying the clusterer
    that [createClusterer] has just made; no input change, list change,
    SDK event or destruction ever makes [ready] emit. *)
Theorem ready_once_per_clusterer ops o pl gl (ps : gmap nat P) (gs : gmap nat G) :
  filter (fun x => x.1 = ready) (emitted (run ops (new_directive o pl gl ps gs))) =
  (fun c => (ready, YaReadyEvent c)) <$> seq 0 (creations ops).
Proof.
  rewrite run_readies by constructor. reflexivity.
Qed.

End ClustererOutputs.

Section ClustererRegistration.
Import Js Ng Clusterer.
Context {P G : Type} `{!ChildDirective P} `{!ChildDirective G}.
Implicit Types st : State P G.

(** *** The SDK calls of a list callback *)

Lemma visit_sdk map c r st :
  sdk (visit map c r st) = sdk st \/ exists o, sdk (visit map c r st) = sdk st ++ [Add c r o].
Proof.
  unfold visit. destruct r as [i|i].
  - destruct (placemark_store st !! i) as [p|]; [|auto].
    destruct (truthy (child_id p)); [auto|].
    destruct (child_create map c p) as [p' o]. right. exists o. reflexivity.
  - destruct (geoObject_store st !! i) as [g|]; [|auto].
    destruct (truthy (child_id g)); [auto|].
    destruct (child_create map c g) as [g' o]. right. exists o. reflexivity.
Qed.

Lemma visits_sdk map c rs st :
  exists adds,
    sdk (foldl (fun s r => visit map c r s) st rs) = sdk st ++ adds /\
    Forall (fun call => exists r o, r ∈ rs /\ call = Add c r o) adds.
Proof.
  revert st. induction rs as [|r rs IH]; intros st; simpl.
  - exists []. rewrite app_nil_r. split; [reflexivity|constructor].
  - destruct (IH (visit map c r st)) as (adds & Hs & Ha).
    assert (Ha' : Forall (fun call => exists r0 o, r0 ∈ r :: rs /\ call = Add c r0 o) adds).
    { eapply Forall_impl; [exact Ha|]. intros call (r0 & o & Hin & ->).
      exists r0, o. split; [apply list_elem_of_further, Hin|reflexivity]. }
    destruct (visit_sdk map c r st) as [Hv|[o Hv]]; rewrite Hs, Hv.
    + exists adds. split; [reflexivity|exact Ha'].
    + exists (Add c r o :: adds). rewrite <- app_assoc. split; [reflexivity|].
      constructor; [|exact Ha']. exists r, o. split; [apply list_elem_of_here|reflexivity].
Qed.

Lemma on_list_sdk k map c l st :
  exists adds,
    sdk (on_list k map c l st) = sdk st ++ adds /\
    Forall (fun call => exists r o, r ∈ refs k l /\ call = Add c r o) adds.
Proof. apply visits_sdk. Qed.

Lemma addEventListeners_sdk st c :
  _clusterer st = Some c ->
  sdk (_addEventListeners st) = sdk st ++ ((fun nh => EventsAdd c nh.1 nh.2) <$> handlers c).
Proof.
  intros Hc. unfold _addEventListeners. rewrite Hc. simpl.
  rewrite <- !app_assoc. reflexivity.
Qed.

Lemma createClusterer_sdk map st :
  exists addsP addsG,
    sdk (createClusterer map st).2 =
      sdk st ++ [NewClusterer (options st)] ++ addsP ++ addsG ++
      ((fun nh => EventsAdd (length (listeners st)) nh.1 nh.2) <$> handlers (length (listeners st))) /\
    Forall (fun call => exists r o, r ∈ refs Placemarks (placemarks st) /\
                                    call = Add (length (listeners st)) r o) addsP /\
    Forall (fun call => exists r o, r ∈ refs GeoObjects (geoObjects st) /\
                                    call = Add (length (listeners st)) r o) addsG.
Proof.
  rewrite createClusterer_unfold. cbv zeta.
  set (c := length (listeners st)).
  set (st1 := (new_clusterer st).2).
  destruct (on_list_sdk Placemarks map c (placemarks st1) st1) as (addsP & HP & HaP).
  set (st2 := on_list Placemarks map c (placemarks st1) st1) in *.
  set (st3 := _sub_add _ st2).
  destruct (on_list_sdk GeoObjects map c (geoObjects st3) st3) as (addsG & HG & HaG).
  set (st4 := on_list GeoObjects map c (geoObjects st3) st3) in *.
  set (st5 := _sub_add _ st4).
  assert (Hc5 : _clusterer st5 = Some c).
  { unfold st5, st4. simpl. rewrite (shell_clusterer _ _ (on_list_shell _ _ _ _ _)).
    unfold st3, st2. simpl. rewrite (shell_clusterer _ _ (on_list_shell _ _ _ _ _)).
    reflexivity. }
  assert (Hg3 : geoObjects st3 = geoObjects st).
  { unfold st3, st2. simpl.
    pose proof (on_list_shell Placemarks map c (placemarks st1) st1) as Hsh.
    unfold shell in Hsh. injection Hsh as _ Hgo _ _ _ _ _ _. exact Hgo. }
  exists addsP, addsG. split; [|split].
  - rewrite (addEventListeners_sdk _ _ Hc5).
    change (sdk st5) with (sdk st4). rewrite HG.
    change (sdk st3) with (sdk st2). rewrite HP.
    change (sdk st1) with (sdk st ++ [NewClusterer (options st)]).
    rewrite <- !app_assoc. reflexivity.
  - exact HaP.
  - rewrite Hg3 in HaG. exact HaG.
Qed.

(** X3: [createClusterer] calls the SDK in a fixed order: it constructs
    the clusterer from the current [options] input, adds children of the
    placemarks list, then children of the geo-objects list, all to the new
    clusterer, and only then registers the four event listeners on it.  The
    reference it returns designates no clusterer that existed before. *)
Theorem createClusterer_call_order map st :
  exists addsP addsG,
    sdk (createClusterer map st).2 =
      sdk st ++ [NewClusterer (options st)] ++ addsP ++ addsG ++
      ((fun nh => EventsAdd (createClusterer map st).1 nh.1 nh.2)
         <$> handlers (createClusterer map st).1) /\
    Forall (fun call => exists i o, i ∈ placemarks st /\
                call = Add (createClusterer map st).1 (PlacemarkRef i) o) addsP /\
    Forall (fun call => exists i o, i ∈ geoObjects st /\
                call = Add (createClusterer map st).1 (GeoObjectRef i) o) addsG /\
    listeners st !! (createClusterer map st).1 = None.
Proof.
  destruct (createClusterer_sdk map st) as (addsP & addsG & Hs & HP & HG).
  exists addsP, addsG. rewrite createClusterer_fst.
  split; [exact Hs|]. split; [|split].
  - eapply Forall_impl; [exact HP|]. intros call (r & o & Hin & ->).
    apply list_elem_of_fmap in Hin as (i & -> & Hi). eauto.
  - eapply Forall_impl; [exact HG|]. intros call (r & o & Hin & ->).
    apply list_elem_of_fmap in Hin as (i & -> & Hi). eauto.
  - apply lookup_ge_None. lia.
Qed.

(** *** Children that have not been created are added *)

Lemma visit_other map c x r st :
  x ≠ r ->
  id_of (visit map c x st) r = id_of st r /\
  forall m c', create_result m c' (visit map c x st) r = create_result m c' st r.
Proof.
  intros Hne. unfold visit. destruct x as [j|j].
  - destruct (placemark_store st !! j) as [p|]; [|auto].
    destruct (truthy (child_id p)); [auto|].
    destruct (child_create map c p) as [p' o].
    destruct r as [i|i]; simpl; [|auto].
    rewrite lookup_insert_ne by congruence. auto.
  - destruct (geoObject_store st !! j) as [g|]; [|auto].
    destruct (truthy (child_id g)); [auto|].
    destruct (child_create map c g) as [g' o].
    destruct r as [i|i]; simpl; [auto|].
    rewrite lookup_insert_ne by congruence. auto.
Qed.

Lemma visit_adds map c r o st :
  truthy (id_of st r) = false ->
  create_result map c st r = Some o ->
  sdk (visit map c r st) = sdk st ++ [Add c r o].
Proof.
  unfold visit, id_of, create_result. destruct r as [i|i].
  - destruct (placemark_store st !! i) as [p|]; simpl; [|discriminate].
    intros -> [= <-]. destruct (child_create map c p). reflexivity.
  - destruct (geoObject_store st !! i) as [g|]; simpl; [|discriminate].
    intros -> [= <-]. destruct (child_create map c g). reflexivity.
Qed.

Lemma visits_add map c rs r o st :
  r ∈ rs ->
  truthy (id_of st r) = false ->
  create_result map c st r = Some o ->
  Add c r o ∈ sdk (foldl (fun s x => visit map c x s) st rs).
Proof.
  revert st. induction rs as [|x rs IH]; intros st Hin Hf Ho; [inversion Hin|].
  simpl. destruct (decide (x = r)) as [->|Hne].
  - destruct (visits_sdk map c rs (visit map c r st)) as (adds & -> & _).
    rewrite (visit_adds map c r o st Hf Ho).
    apply elem_of_app. left. apply elem_of_app. right. apply list_elem_of_here.
  - apply elem_of_cons in Hin as [->|Hin]; [congruence|].
    destruct (visit_other map c x r st Hne) as [Hid Hcr].
    apply IH; [exact Hin|rewrite Hid; exact Hf|rewrite Hcr; exact Ho].
Qed.

Lemma visits_others map c rs r st :
  r ∉ rs ->
  id_of (foldl (fun s x => visit map c x s) st rs) r = id_of st r /\
  forall m c', create_result m c' (foldl (fun s x => visit map c x s) st rs) r
               = create_result m c' st r.
Proof.
  revert st. induction rs as [|x rs IH]; intros st Hnin; simpl; [auto|].
  apply not_elem_of_cons in Hnin as [Hne Hnin].
  destruct (IH (visit map c x st) Hnin) as [Hid Hcr].
  destruct (visit_other map c x r st (not_eq_sym Hne)) as [Hid' Hcr'].
  split; [congruence|]. intros m c'. rewrite Hcr. apply Hcr'.
Qed.

Lemma sdk_grows_addEventListeners st call :
  call ∈ sdk st -> call ∈ sdk (_addEventListeners st).
Proof.
  intros Hin. unfold _addEventListeners. destruct (_clusterer st) as [c|]; [|exact Hin].
  simpl. rewrite <- !app_assoc. apply elem_of_app. left. exact Hin.
Qed.

(** X4: when a clusterer is created, every child of the placemarks and
    geo-objects lists that exists and has a falsy [id] is added to the new
    clusterer, as the SDK object its create method returns for this map
    and this clusterer. *)
Theorem createClusterer_adds_uncreated map st r o :
  r ∈ refs Placemarks (placemarks st) ++ refs GeoObjects (geoObjects st) ->
  truthy (id_of st r) = false ->
  create_result map (createClusterer map st).1 st r = Some o ->
  Add (createClusterer map st).1 r o ∈ sdk (createClusterer map st).2.
Proof.
  rewrite createClusterer_unfold, createClusterer_fst. cbv zeta.
  set (c := length (listeners st)).
  set (st1 := (new_clusterer st).2).
  intros Hin Hf Ho. apply sdk_grows_addEventListeners.
  change (sdk (_sub_add ?s ?x)) with (sdk x).
  set (st2 := on_list Placemarks map c (placemarks st1) st1).
  set (st3 := _sub_add _ st2).
  assert (Hg3 : geoObjects st3 = geoObjects st).
  { unfold st3, st2. simpl.
    pose proof (on_list_shell Placemarks map c (placemarks st1) st1) as Hsh.
    unfold shell in Hsh. injection Hsh as _ Hgo _ _ _ _ _ _. exact Hgo. }
  rewrite Hg3.
  destruct (decide (r ∈ refs Placemarks (placemarks st))) as [HinP|HninP].
  - destruct (on_list_sdk GeoObjects map c (geoObjects st) st3) as (adds & -> & _).
    apply elem_of_app. left. change (sdk st3) with (sdk st2).
    unfold st2, on_list. apply visits_add; assumption.
  - apply elem_of_app in Hin as [Hin|Hin]; [contradiction|].
    destruct (visits_others map c (refs Placemarks (placemarks st)) r st1 HninP) as [Hid Hcr].
    unfold on_list. apply visits_add; [exact Hin| |].
    + change (id_of st3 r) with (id_of st2 r). unfold st2, on_list.
      change (placemarks st1) with (placemarks st). rewrite Hid. exact Hf.
    + change (create_result map c st3 r) with (create_result map c st2 r).
      unfold st2, on_list. change (placemarks st1) with (placemarks st).
      rewrite Hcr. exact Ho.
Qed.

(** *** Subscriptions *)

Lemma createClusterer_subs map st :
  _sub_closed (createClusterer map st).2 = _sub_closed st /\
  _sub (createClusterer map st).2 =
    if _sub_closed st then _sub st
    else _sub st ++
         [ {| sub_kind := Placemarks; sub_map := map; sub_clusterer := length (listeners st) |};
           {| sub_kind := GeoObjects; sub_map := map; sub_clusterer := length (listeners st) |} ].
Proof.
  rewrite createClusterer_unfold. cbv zeta.
  set (c := length (listeners st)).
  set (st1 := (new_clusterer st).2).
  set (st2 := on_list Placemarks map c (placemarks st1) st1).
  set (st3 := _sub_add _ st2).
  set (st4 := on_list GeoObjects map c (geoObjects st3) st3).
  set (st5 := _sub_add _ st4).
  assert (H2 : _sub_closed st2 = _sub_closed st /\ _sub st2 = _sub st).
  { unfold st2. rewrite (shell_closed _ _ (on_list_shell _ _ _ _ _)).
    rewrite (shell_subs _ _ (on_list_shell _ _ _ _ _)). split; reflexivity. }
  destruct H2 as [Hc2 Hs2].
  assert (H4 : _sub_closed st4 = _sub_closed st /\ _sub st4 = _sub st3).
  { unfold st4. rewrite (shell_closed _ _ (on_list_shell _ _ _ _ _)).
    rewrite (shell_subs _ _ (on_list_shell _ _ _ _ _)). split; [exact Hc2|reflexivity]. }
  destruct H4 as [Hc4 Hs4].
  assert (H5 : _sub_closed (_addEventListeners st5) = _sub_closed st5 /\
               _sub (_addEventListeners st5) = _sub st5).
  { unfold _addEventListeners. destruct (_clusterer st5); split; reflexivity. }
  destruct H5 as [-> ->].
  split; [exact Hc4|].
  simpl. rewrite Hc4, Hs4. simpl. rewrite Hc2, Hs2.
  destruct (_sub_closed st); [reflexivity|]. rewrite <- app_assoc. reflexivity.
Qed.


Lemma fire_subs c e st :
  _sub_closed (fire c e st) = _sub_closed st /\ _sub (fire c e st) = _sub st.
Proof.
  unfold fire. generalize (default [] (listeners st !! c)). intros hs.
  revert st. induction hs as [|h hs IH]; intros st; simpl; [auto|].
  destruct (IH (if listens h.1 (type (originalEvent e)) then run_handler h.2 e st else st))
    as [-> ->].
  destruct (listens _ _); auto.
Qed.

Lemma step_destroyed st op :
  _sub_closed st = true -> _sub st = [] ->
  _sub_closed (step st op) = true /\ _sub (step st op) = [].
Proof.
  intros Hc Hs. destruct op as [changes|map|k l|c e|]; cbn [step].
  - unfold ngOnChanges, _updateClusterer.
    destruct (_clusterer (assign_inputs changes st)); [|auto].
    destruct (changes !! "options"); auto.
  - destruct (createClusterer_subs map st) as [-> ->]. rewrite Hc. auto.
  - unfold changes_emit.
    rewrite (shell_closed _ _ (notifies_shell _ _ _ _)).
    rewrite (shell_subs _ _ (notifies_shell _ _ _ _)). auto.
  - destruct (fire_subs c e st) as [-> ->]. auto.
  - auto.
Qed.

Lemma run_destroyed ops st :
  _sub_closed st = true -> _sub st = [] ->
  _sub_closed (run ops st) = true /\ _sub (run ops st) = [].
Proof.
  unfold run. revert st. induction ops as [|op ops IH]; intros st Hc Hs; simpl; [auto|].
  destruct (step_destroyed st op Hc Hs) as [Hc' Hs']. apply IH; assumption.
Qed.

(** X6: destruction is final.  After [ngOnDestroy], whatever happens next,
    a clusterer created later included, an emission of a query list only
    replaces the content of that list: it makes no SDK call and creates no
    child. *)
Theorem destroyed_ignores_changes ops k l st :
  changes_emit k l (run ops (ngOnDestroy st)) = set_list k l (run ops (ngOnDestroy st)).
Proof.
  destruct (run_destroyed ops (ngOnDestroy st) eq_refl eq_refl) as [_ Hs].
  unfold changes_emit. change (_sub (set_list k l ?x)) with (_sub x).
  rewrite Hs. reflexivity.
Qed.

(** X7: an [options] change that arrives before the clusterer exists makes
    no setter call; the changed value reaches the SDK as the constructor
    argument when the clusterer is created, and [options.set] is not called
    during the creation either. *)
Theorem early_options_reach_constructor map changes ch st :
  _clusterer st = None ->
  changes !! "options" = Some ch ->
  exists rest,
    sdk (run [OnChanges changes; CreateClusterer map] st) =
      sdk st ++ NewClusterer (currentValue ch) :: rest /\
    Forall (fun call => forall c v, call ≠ OptionsSet c v) rest.
Proof.
  intros Hc Hch. unfold run. cbn [foldl step].
  assert (Hst : ngOnChanges changes (assign_inputs changes st) = assign_inputs changes st).
  { unfold ngOnChanges, _updateClusterer. simpl. rewrite Hc. reflexivity. }
  rewrite Hst.
  destruct (createClusterer_sdk map (assign_inputs changes st))
    as (addsP & addsG & Hs & HP & HG).
  exists (addsP ++ addsG ++
          ((fun nh => EventsAdd (length (listeners st)) nh.1 nh.2)
             <$> handlers (length (listeners st)))).
  split.
  - rewrite Hs.
    change (sdk (assign_inputs changes st)) with (sdk st).
    change (options (assign_inputs changes st))
      with (default (options st) (currentValue <$> changes !! "options")).
    rewrite Hch. reflexivity.
  - rewrite !Forall_app. split; [|split].
    + eapply Forall_impl; [exact HP|]. intros call (r & o & _ & ->). discriminate.
    + eapply Forall_impl; [exact HG|]. intros call (r & o & _ & ->). discriminate.
    + rewrite Forall_fmap. apply Forall_true. intros nh c v. discriminate.
Qed.

End ClustererRegistration.

Section ClustererRegistrationWitnesses.
Import Js Ng Clusterer.

Lemma unhandled_events_ignored_witness :
  fire (createClusterer 0 sample_directive).1 (sdk_event "click" VNull)
       (run [Changes Placemarks [1; 0]] (createClusterer 0 sample_directive).2)
  = run [Changes Placemarks [1; 0]] (createClusterer 0 sample_directive).2.
Proof.
  apply (unhandled_events_ignored 0 [Changes Placemarks [1; 0]]
           (sdk_event "click" VNull) sample_directive).
  refine (bool_decide_unpack _ _). vm_compute. exact I.
Defined.

Lemma createClusterer_adds_uncreated_witness :
  Add (createClusterer 0 sample_directive).1 (PlacemarkRef 1) (VRef 11%positive)
    ∈ sdk (createClusterer 0 sample_directive).2.
Proof.
  apply (createClusterer_adds_uncreated 0 sample_directive (PlacemarkRef 1) (VRef 11%positive)).
  - refine (bool_decide_unpack _ _). vm_compute. exact I.
  - vm_compute. reflexivity.
  - vm_compute. reflexivity.
Defined.


Lemma early_options_reach_constructor_witness :
  exists rest,
    sdk (run [OnChanges {[ "options" := {| previousValue := VNum 1; currentValue := VNum 2;
                                           firstChange := false |} ]};
              CreateClusterer 0] sample_directive) =
      sdk sample_directive
      ++ NewClusterer (currentValue {| previousValue := VNum 1; currentValue := VNum 2;
                                       firstChange := false |}) :: rest /\
    Forall (fun call => forall c v, call ≠ OptionsSet c v) rest.
Proof.
  apply (early_options_reach_constructor 0
           {[ "options" := {| previousValue := VNum 1; currentValue := VNum 2;
                              firstChange := false |} ]}
           {| previousValue := VNum 1; currentValue := VNum 2; firstChange := false |}
           sample_directive).
  - reflexivity.
  - vm_compute. reflexivity.
Defined.

End ClustererRegistrationWitnesses.

(** * Further properties of [YandexMapComponent] *)

Section YandexMapIds.
Import Js YandexMap.

Lemma to_hex_uint_nonnil n : N.to_hex_uint n ≠ Hexadecimal.Nil.
Proof.
  destruct n as [|p]; [discriminate|]. apply HexadecimalPos.Unsigned.to_uint_nonnil.
Qed.

Lemma toString16_parses n :
  HexadecimalString.NilZero.uint_of_string (toString16 n) = Some (N.to_hex_uint n).
Proof. apply HexadecimalString.NilZero.usu, to_hex_uint_nonnil. Qed.

Lemma toString16_inj n n' : toString16 n = toString16 n' -> n = n'.
Proof.
  intros Heq. apply HexadecimalN.Unsigned.to_uint_inj.
  pose proof (toString16_parses n) as Hn. rewrite Heq, toString16_parses in Hn.
  congruence.
Qed.

(** X8: the id [_setUniqueMapIdOfMap] generates is the letter [f] followed
    by hexadecimal digits that read back as the number drawn; two
    initialisations get the same id exactly when they drew the same number. *)
Theorem unique_id_reads_back r st :
  (exists digits,
      _uniqueMapId (ngOnInit r st) = Some (String.append "f" digits) /\
      mapContainer (ngOnInit r st) !! "id" = Some (String.append "f" digits) /\
      N.of_hex_uint <$> HexadecimalString.NilZero.uint_of_string digits = Some r) /\
  (forall r' st', _uniqueMapId (ngOnInit r st) = _uniqueMapId (ngOnInit r' st') <-> r = r').
Proof.
  split.
  - exists (toString16 r). split; [reflexivity|]. split; [apply lookup_insert_eq|].
    rewrite toString16_parses. simpl. rewrite HexadecimalN.Unsigned.of_to. reflexivity.
  - intros r' st'. split; [|intros ->; reflexivity].
    simpl. intros [= Heq]. apply toString16_inj, Heq.
Qed.

End YandexMapIds.

Section YandexMapObjects.
Import Js YandexMap.

Lemma state_after_init st r n :
  subscribers st = [] ->
  heap (initMap_emits_n (S n) (ngOnInit r st)) = heap (_combineInputs st) /\
  multiroutes (initMap_emits_n (S n) (ngOnInit r st)) = multiroutes (_combineInputs st).
Proof.
  intros H.
  rewrite initMap_emits_n_first by (apply ngOnInit_subscribers, H).
  rewrite initMap_emits_first by (apply ngOnInit_subscribers, H).
  change (heap (with_subscribers ?s ?x)) with (heap x).
  change (multiroutes (with_subscribers ?s ?x)) with (multiroutes x).
  rewrite on_initMap_unfold.
  change (heap (with_trace ?t ?x)) with (heap x).
  change (multiroutes (with_trace ?t ?x)) with (multiroutes x).
  rewrite !combineInputs_unfold. split; reflexivity.
Qed.

Lemma combined_model_origin (X : gset positive) ms ms' m' l :
  Forall2 (combined X) ms ms' ->
  m' ∈ ms' -> multirouteModel m' = Some l ->
  Some l ∈ multirouteModel <$> ms \/ l ∉ X.
Proof.
  intros Hc Hin Hm. apply list_elem_of_lookup in Hin as [i Hi].
  destruct (Forall2_lookup_r _ _ _ _ _ Hc Hi) as (m & Him & _ & _ & Hmodel).
  destruct (multirouteModel m) as [l0|] eqn:Em.
  - left. apply list_elem_of_fmap. exists m. split; [congruence|].
    apply list_elem_of_lookup. eauto.
  - right. destruct Hmodel as (l1 & Hl1 & Hfresh). congruence.
Qed.

Lemma combineInputs_other_object st l :
  l ∈ dom (heap st) ->
  l ≠ mapState st ->
  Some l ∉ multirouteModel <$> multiroutes st ->
  fields (heap (_combineInputs st)) l = fields (heap st) l.
Proof.
  intros Hdom Hms Hmodel. apply map_eq. intros k.
  destruct (decide (fields (heap (_combineInputs st)) l !! k = fields (heap st) l !! k))
    as [|Hne]; [assumption|].
  exfalso. apply combineInputs_only in Hne as [[? _]|[_ (m' & Hin & Hm')]]; [contradiction|].
  destruct (combined_model_origin _ _ _ _ _ (combineInputs_models st) Hin Hm') as [|Hfresh];
    [contradiction|].
  apply Hfresh, elem_of_union_r, Hdom.
Qed.

(** X9: initialisation writes to the map state object and to the models of
    the multiroutes only.  Any other object of the user (the map options,
    the options and geometries of the children) is the same, property for
    property, in the heap that [createMap] and every later service call
    observes and after the initialisation. *)
Theorem other_objects_untouched st r n l :
  subscribers st = [] ->
  l ∈ dom (heap st) ->
  l ≠ mapState st ->
  Some l ∉ multirouteModel <$> multiroutes st ->
  Forall (fun call => fields call.2 l = fields (heap st) l)
         (drop (length (trace st)) (trace (initMap_emits_n (S n) (ngOnInit r st)))) /\
  fields (heap (initMap_emits_n (S n) (ngOnInit r st))) l = fields (heap st) l.
Proof.
  intros H Hdom Hms Hmodel.
  pose proof (combineInputs_other_object st l Hdom Hms Hmodel) as Hsame.
  split.
  - rewrite (trace_after_init st r n H), drop_app_length.
    constructor; [reflexivity|]. rewrite Forall_fmap. apply Forall_true.
    intros c. exact Hsame.
  - destruct (state_after_init st r n H) as [-> _]. exact Hsame.
Qed.

(** *** Models of the multiroutes *)

Lemma combine_multiroute_model_dom h m l :
  multirouteModel (combine_multiroute h m).2 = Some l ->
  l ∈ dom (combine_multiroute h m).1.
Proof.
  unfold combine_multiroute.
  destruct (multirouteModel m) as [l0|]; simpl; intros [= <-];
    rewrite dom_set; apply elem_of_union_l, elem_of_singleton; reflexivity.
Qed.

Lemma combine_multiroutes_NoDup h ms :
  NoDup (omap multirouteModel ms) ->
  (forall l, l ∈ omap multirouteModel ms -> l ∈ dom h) ->
  NoDup (multirouteModel <$> (combine_multiroutes h ms).2).
Proof.
  revert h. induction ms as [|m ms IH]; intros h Hnd Hdom; [constructor|].
  rewrite combine_multiroutes_cons. simpl.
  set (h1 := (combine_multiroute h m).1).
  set (m1 := (combine_multiroute h m).2).
  assert (Hnd' : NoDup (omap multirouteModel ms)).
  { simpl in Hnd. destruct (multirouteModel m); [|exact Hnd].
    apply NoDup_cons in Hnd as [_ ?]. assumption. }
  assert (Hdom' : forall l, l ∈ omap multirouteModel ms -> l ∈ dom h).
  { intros l Hl. apply Hdom. simpl. destruct (multirouteModel m); [|exact Hl].
    apply list_elem_of_further, Hl. }
  apply NoDup_cons. split.
  - intros Hin. apply list_elem_of_fmap in Hin as (m' & Hm' & Hin').
    destruct (combine_multiroute_combined h m) as (_ & _ & Hmodel1). fold m1 in Hmodel1.
    destruct (multirouteModel m1) as [l1|] eqn:E1;
      [|destruct (multirouteModel m); [discriminate|destruct Hmodel1 as (? & ? & _); discriminate]].
    pose proof (combine_multiroute_model_dom h m l1 E1) as Hl1. fold h1 in Hl1.
    destruct (combined_model_origin _ _ _ _ l1 (combine_multiroutes_combined h1 ms) Hin'
                (eq_sym Hm')) as [Hold|Hfresh]; [|contradiction].
    apply list_elem_of_fmap in Hold as (m0 & Hm0 & Hin0).
    assert (Hl1ms : l1 ∈ omap multirouteModel ms).
    { apply list_elem_of_omap. exists m0. split; [exact Hin0|congruence]. }
    destruct (multirouteModel m) as [l|] eqn:Em.
    + assert (l = l1) as -> by congruence.
      simpl in Hnd. rewrite Em in Hnd. apply NoDup_cons in Hnd as [Hnin _]. contradiction.
    + destruct Hmodel1 as (l & Hl & Hfresh). assert (l = l1) as -> by congruence.
      apply Hfresh, Hdom', Hl1ms.
  - apply IH; [exact Hnd'|]. intros l Hl.
    apply (combine_multiroute_dom h m), Hdom', Hl.
Qed.

(** X10: every [createMultiroute] call gets a model object, never
    [undefined]: the multiroute's own model when it has one, a new object
    otherwise.  When the call is made that object holds the multiroute's
    [referencePoints] input (the models given by the user being distinct
    existing objects), and the call also carries the multiroute's options. *)
Theorem multiroute_models_ready st r n i m :
  subscribers st = [] ->
  NoDup (omap multirouteModel (multiroutes st)) ->
  Forall (fun l => l ∈ dom (heap st)) (omap multirouteModel (multiroutes st)) ->
  multiroutes st !! i = Some m ->
  exists l h,
    trace (initMap_emits_n (S n) (ngOnInit r st))
      !! (length (trace st) + 2 + length (placemarks st) + i)%nat
      = Some (CreateMultiroute (Some l) (multirouteOptions m), h) /\
    fields h l !! "referencePoints" = Some (referencePoints m) /\
    match multirouteModel m with
    | Some l0 => l = l0
    | None => l ∉ dom (heap st)
    end.
Proof.
  intros H Hnd Hdom Hi. rewrite Forall_forall in Hdom.
  pose proof (combineInputs_models st) as Hcomb.
  destruct (Forall2_lookup_l _ _ _ _ _ Hcomb Hi) as (m' & Hi' & Hrp & Hopt & Hmodel).
  assert (Hl : exists l, multirouteModel m' = Some l /\
                 match multirouteModel m with
                 | Some l0 => l = l0
                 | None => l ∉ dom (heap st)
                 end).
  { destruct (multirouteModel m) as [l0|]; [eauto|].
    destruct Hmodel as (l & Hl & Hfresh). exists l. split; [exact Hl|].
    intros Hin. apply Hfresh, elem_of_union_r, Hin. }
  destruct Hl as (l & Hml & Hkind).
  assert (Hnd3 : NoDup (multirouteModel <$> multiroutes (_combineInputs st))).
  { rewrite combineInputs_unfold. simpl. apply combine_multiroutes_NoDup; [exact Hnd|].
    intros l0 Hl0. rewrite !dom_set. do 2 apply elem_of_union_r. apply Hdom, Hl0. }
  exists l, (heap (_combineInputs st)). split; [|split; [|exact Hkind]].
  - rewrite (trace_after_init st r n H), fmap_cons.
    rewrite lookup_app_r by lia.
    replace (length (trace st) + 2 + length (placemarks st) + i - length (trace st))%nat
      with (S (S (length (placemarks st) + i))) by lia.
    change ((?a :: ?b :: ?rest) !! S (S ?k)) with (rest !! k).
    rewrite list_lookup_fmap. unfold children_calls.
    assert (Hp : placemarks (_combineInputs st) = placemarks st)
      by (rewrite combineInputs_unfold; reflexivity).
    rewrite Hp, lookup_app_r by (rewrite length_fmap; lia).
    rewrite length_fmap.
    replace (length (placemarks st) + i - length (placemarks st))%nat with i by lia.
    rewrite lookup_app_l by (rewrite length_fmap; apply lookup_lt_Some in Hi'; exact Hi').
    rewrite list_lookup_fmap, Hi'. simpl. unfold multiroute_call.
    rewrite Hml, Hopt. reflexivity.
  - rewrite <- Hrp. apply combineInputs_referencePoints; [exact Hnd3| |exact Hml].
    apply list_elem_of_lookup. eauto.
Qed.

End YandexMapObjects.

Section YandexMapObjectsWitnesses.
Import Js YandexMap.

Lemma other_objects_untouched_witness :
  Forall (fun call => fields call.2 2%positive
                      = fields (heap (sample (VNum 10) VUndefined)) 2%positive)
         (drop (length (trace (sample (VNum 10) VUndefined)))
               (trace (initMap_emits_n 2 (ngOnInit 255 (sample (VNum 10) VUndefined))))) /\
  fields (heap (initMap_emits_n 2 (ngOnInit 255 (sample (VNum 10) VUndefined)))) 2%positive
  = fields (heap (sample (VNum 10) VUndefined)) 2%positive.
Proof.
  apply (other_objects_untouched (sample (VNum 10) VUndefined) 255 1 2%positive).
  - reflexivity.
  - refine (bool_decide_unpack _ _). vm_compute. exact I.
  - refine (bool_decide_unpack _ _). vm_compute. exact I.
  - refine (bool_decide_unpack _ _). vm_compute. exact I.
Defined.

Lemma multiroute_models_ready_witness :
  exists l h,
    trace (initMap_emits_n 1 (ngOnInit 255 (sample (VNum 10) VUndefined)))
      !! (length (trace (sample (VNum 10) VUndefined)) + 2
          + length (placemarks (sample (VNum 10) VUndefined)) + 0)%nat
      = Some (CreateMultiroute (Some l) VUndefined, h) /\
    fields h l !! "referencePoints" = Some (VStr "a") /\
    l ∉ dom (heap (sample (VNum 10) VUndefined)).
Proof.
  apply (multiroute_models_ready (sample (VNum 10) VUndefined) 255 0 0
           {| referencePoints := VStr "a"; multirouteModel := None;
              multirouteOptions := VUndefined |}).
  - reflexivity.
  - refine (bool_decide_unpack _ _). vm_compute. exact I.
  - refine (bool_decide_unpack _ _). vm_compute. exact I.
  - reflexivity.
Defined.

End YandexMapObjectsWitnesses.
